(** * build.py: the incremental build of the language library

    A shallow embedding of [build_library] from [build.py] and the
    properties of its rebuild decision, source discovery, per-unit flag
    selection, linking and error paths.

    The file system is a finite map from paths to modification times, the
    toolchain (distutils) is an oracle carried by the host record, and the
    function itself runs in a small state-and-exception monad that also
    logs every toolchain call. *)

From Stdlib Require Import ZArith Ascii String List Lia.
From stdpp Require Import base option list gmap strings.

Local Open Scope Z_scope.

(** ** Python's string tests *)

Module Str.

Abbreviation chars := String.list_ascii_of_string (only parsing).

(** [s.startswith(p)] *)
Definition startswith (s p : string) : bool :=
  bool_decide (chars p `prefix_of` chars s).

(** [s.endswith(p)] *)
Definition endswith (s p : string) : bool :=
  bool_decide (chars p `suffix_of` chars s).

End Str.

(** ** [os.path]: the pure part

    [os.path] is [posixpath] or [ntpath] depending on the host; the build
    uses its [join] and [dirname]. *)

Class PathModule := {
  join : string → string → string;
  dirname : string → string
}.

Module posixpath.

Definition sep : ascii := "/"%char.

(** [posixpath.join(a, b)] for one extra component. *)
Definition join (a b : string) : string :=
  if Str.startswith b "/" then b
  else if bool_decide (a = "") || Str.endswith a "/" then a +:+ b
  else a +:+ "/" +:+ b.

(** [p[:p.rfind('/') + 1]] *)
Fixpoint head_of (p : string) : string :=
  match p with
  | "" => ""
  | String c rest =>
      let h := head_of rest in
      if bool_decide (c = sep) || negb (bool_decide (h = ""))
      then String c h else ""
  end.

(** [head == '/' * len(head)] *)
Fixpoint all_sep (p : string) : bool :=
  match p with
  | "" => true
  | String c rest => bool_decide (c = sep) && all_sep rest
  end.

(** [head.rstrip('/')] *)
Fixpoint rstrip_sep (p : string) : string :=
  match p with
  | "" => ""
  | String c rest =>
      let r := rstrip_sep rest in
      if bool_decide (r = "") && bool_decide (c = sep) then ""
      else String c r
  end.

(** [posixpath.dirname(p)] *)
Definition dirname (p : string) : string :=
  let head := head_of p in
  if negb (bool_decide (head = "")) && negb (all_sep head)
  then rstrip_sep head else head.

End posixpath.

Definition posix : PathModule :=
  {| join := posixpath.join; dirname := posixpath.dirname |}.

(** A file name made of one plain component: no separator, no drive. *)
Definition plain_name (b : string) : bool :=
  forallb (λ c, negb (bool_decide (c ∈ ["/"; "\"; ":"]%char)))
          (String.list_ascii_of_string b).

(** What both [posixpath.join] and [ntpath.join] do with a plain last
    component: the result ends with it. *)
Class PathLaws (P : PathModule) : Prop := {
  join_keeps_name a b :
    plain_name b = true → Str.endswith (join a b) b = true
}.

(** The two dialects of a compilation unit. *)
Inductive dialect := C | Cpp.

(** ** The file system and the host *)

(** Modification times of the files that exist, as ticks of the clock of
    [os.stat]; a path absent from the map does not exist.  The build only
    compares these times (with each other and with the literal 0), so the
    floats of [os.stat] are read as integers, negative before the epoch. *)
Abbreviation FS := (gmap string Z).

Inductive exn :=
  | ValueError (msg : string)
  | FileNotFoundError (filename : string)
  | RuntimeError (msg : string)
  | DistutilsPlatformError
  | CompileError (source : string)
  | LinkError.

Inductive compiler_class := UnixCCompiler | OtherCCompiler.

(** What [from distutils... import] followed by [new_compiler()] gives. *)
Inductive distutils_status :=
  | ImportFails
  | NoCompiler
  | Compiler (c : compiler_class).

(** The calls the build makes to the toolchain and to [tempfile]. *)
Inductive event :=
  | EvNewCompiler
  | EvSetExecutables (compiler_cxx : string)
  | EvMkTemp (dir : string)
  | EvCompile (source output_dir : string) (include_dirs : list string)
              (extra_preargs : option (list string))
  | EvLink (objects : list string) (output : string) (target_lang : string)
  | EvRmTemp (dir : string).

Record Host := {
  (** [__file__] *)
  script_file : string;
  (** [platform.system()] *)
  platform_system : string;
  distutils : distutils_status;
  (** the directory [TemporaryDirectory] creates *)
  tempdir : string;
  (** [compiler.compile([source], output_dir, include_dirs, extra_preargs)[0]],
      [None] when it raises; the objects it writes live in the temporary
      directory, which the map of modification times does not follow *)
  cc_compile :
    string → string → list string → option (list string) → option string;
  (** [compiler.link_shared_object(objects, output, target_lang)]: the file
      system it leaves, [None] when it raises *)
  cc_link : list string → string → string → FS → option FS
}.

(** ** The monad: file-system state, exceptions, a log of events *)

Inductive outcome (A : Type) :=
  | Return (a : A)
  | Raise (e : exn).
Arguments Return {A} a.
Arguments Raise {A} e.

Definition Py (A : Type) : Type := FS → outcome A * FS * list event.

Definition ret {A} (a : A) : Py A := λ fs, (Return a, fs, []).

Definition bind {A B} (m : Py A) (k : A → Py B) : Py B := λ fs,
  match m fs with
  | (Return a, fs1, t1) =>
      match k a fs1 with (r, fs2, t2) => (r, fs2, t1 ++ t2) end
  | (Raise e, fs1, t1) => (Raise e, fs1, t1)
  end.

Definition raise {A} (e : exn) : Py A := λ fs, (Raise e, fs, []).

Definition emit (ev : event) : Py unit := λ fs, (Return tt, fs, [ev]).

Notation "x <- m ;; k" := (bind m (λ x, k))
  (at level 100, m at next level, right associativity,
   format "'[v' x  <-  m  ;; '/' k ']'").
Notation "m ;;; k" := (bind m (λ _, k))
  (at level 100, right associativity, format "'[v' m  ;;; '/' k ']'").

(** [for x in l: acc = body(acc, x)] *)
Fixpoint for_each {A S} (body : S → A → Py S) (l : list A) (acc : S) : Py S :=
  match l with
  | [] => ret acc
  | x :: l => acc' <- body acc x ;; for_each body l acc'
  end.

(** [[f(x) for x in l]] *)
Fixpoint comprehension {A B} (f : A → Py B) (l : list A) : Py (list B) :=
  match l with
  | [] => ret []
  | x :: l => y <- f x ;; ys <- comprehension f l ;; ret (y :: ys)
  end.

(** [with TemporaryDirectory(...) as d: body]: the directory is removed on
    every way out of the body. *)
Definition with_TemporaryDirectory {A} (d : string) (body : string → Py A)
  : Py A := λ fs,
  match body d fs with
  | (r, fs1, t) => (r, fs1, EvMkTemp d :: t ++ [EvRmTemp d])
  end.

(** ** File-system reads *)

(** [path.exists(p)] *)
Definition path_exists (p : string) : Py bool := λ fs,
  (Return (bool_decide (is_Some (fs !! p))), fs, []).

(** [path.getmtime(p)] *)
Definition getmtime (p : string) : Py Z := λ fs,
  match fs !! p with
  | Some t => (Return t, fs, [])
  | None => (Raise (FileNotFoundError p), fs, [])
  end.

(** [max(l)] *)
Definition py_max (l : list Z) : Py Z :=
  match l with
  | [] => raise (ValueError "max() arg is an empty sequence")
  | x :: l => ret (foldl Z.max x l)
  end.

(** ** [build_library] *)

Section Build.

Context {P : PathModule} (h : Host).

(** Body of the loop of lines 61-68. *)
Definition discover_step (acc : bool * list string) (repo_path : string)
  : Py (bool * list string) :=
  let '(cpp, source_paths) := acc in
  let src_path := join repo_path "src" in
  let source_paths := source_paths ++ [join src_path "parser.c"] in
  has_cc <- path_exists (join src_path "scanner.cc") ;;
  if has_cc then
    ret (true, source_paths ++ [join src_path "scanner.cc"])
  else
    has_c <- path_exists (join src_path "scanner.c") ;;
    if has_c then
      ret (cpp, source_paths ++ [join src_path "scanner.c"])
    else ret (cpp, source_paths).

(** Lines 90-97. *)
Definition unit_flags (source_path : string) : option (list string) :=
  if bool_decide (platform_system h = "Windows") then None
  else
    let flags := ["-fPIC"] in
    if Str.endswith source_path ".c" then Some (flags ++ ["-std=c11"])
    else Some (flags ++ ["-std=c++11"]).

(** Lines 99-104. *)
Definition compile (source_path out_dir : string) : Py string :=
  let include_dirs := [dirname source_path] in
  let flags := unit_flags source_path in
  emit (EvCompile source_path out_dir include_dirs flags) ;;;
  match cc_compile h source_path out_dir include_dirs flags with
  | Some obj => ret obj
  | None => raise (CompileError source_path)
  end.

(** Body of the loop of lines 89-105. *)
Definition compile_step (out_dir : string) (object_paths : list string)
    (source_path : string) : Py (list string) :=
  obj <- compile source_path out_dir ;;
  ret (object_paths ++ [obj]).

(** Lines 106-110. *)
Definition link_shared_object (object_paths : list string)
    (output_path target_lang : string) : Py unit := λ fs,
  match cc_link h object_paths output_path target_lang fs with
  | Some fs' =>
      (Return tt, fs', [EvLink object_paths output_path target_lang])
  | None =>
      (Raise LinkError, fs, [EvLink object_paths output_path target_lang])
  end.

(** Lines 75-85. *)
Definition new_compiler : Py compiler_class :=
  match distutils h with
  | ImportFails =>
      raise (RuntimeError
        "Failed to import distutils. You may need to install setuptools.")
  | NoCompiler => emit EvNewCompiler ;;; raise DistutilsPlatformError
  | Compiler c => emit EvNewCompiler ;;; ret c
  end.

(** Lines 88-110: the body of the [with] statement. *)
Definition compile_and_link (out_dir output_path : string) (cpp : bool)
    (source_paths : list string) : Py unit :=
  object_paths <- for_each (compile_step out_dir) source_paths [] ;;
  link_shared_object object_paths output_path (if cpp then "c++" else "c").

(** Lines 75-111: what runs once the artifact is found stale. *)
Definition build_pass (output_path : string) (cpp : bool)
    (source_paths : list string) : Py bool :=
  compiler <- new_compiler ;;
  match compiler with
  | UnixCCompiler => emit (EvSetExecutables "c++")
  | OtherCCompiler => ret tt
  end ;;;
  with_TemporaryDirectory (tempdir h) (λ out_dir,
    compile_and_link out_dir output_path cpp source_paths) ;;;
  ret true.

(** Line 54. *)
Definition read_output_mtime (output_path : string) : Py Z :=
  has_output <- path_exists output_path ;;
  if has_output then getmtime output_path else ret 0.

Definition build_library (output_path : string) (repo_paths : list string)
  : Py bool :=
  output_mtime <- read_output_mtime output_path ;;
  if bool_decide (repo_paths = []) then
    raise (ValueError "Must provide at least one language folder")
  else
    found <- for_each discover_step repo_paths (false, []) ;;
    let '(cpp, source_paths) := found in
    source_mtimes <- comprehension getmtime (script_file h :: source_paths) ;;
    newest <- py_max source_mtimes ;;
    if bool_decide (newest ≤ output_mtime) then ret false
    else build_pass output_path cpp source_paths.

(** The test of line 94 read as the dialect of a unit. *)
Definition dialect_of (source_path : string) : dialect :=
  if Str.endswith source_path ".c" then C else Cpp.

(** *** The discovery convention, as the specification words it *)

Definition src_dir (root : string) : string := join root "src".

Definition has_cpp_scanner (fs : FS) (root : string) : bool :=
  bool_decide (is_Some (fs !! join (src_dir root) "scanner.cc")).

Definition has_c_scanner (fs : FS) (root : string) : bool :=
  bool_decide (is_Some (fs !! join (src_dir root) "scanner.c")).

Definition module_units (fs : FS) (root : string) : list (string * dialect) :=
  (join (src_dir root) "parser.c", C) ::
  (if has_cpp_scanner fs root then [(join (src_dir root) "scanner.cc", Cpp)]
   else if has_c_scanner fs root then [(join (src_dir root) "scanner.c", C)]
   else []).

Definition all_units (fs : FS) (roots : list string)
  : list (string * dialect) :=
  flat_map (module_units fs) roots.

Definition is_cpp_target (fs : FS) (roots : list string) : bool :=
  existsb (has_cpp_scanner fs) roots.

(** The inputs of the staleness check: the build script, then the units. *)
Definition inputs (fs : FS) (roots : list string) : list string :=
  script_file h :: (all_units fs roots).*1.

(** *** Pure views of the two loops *)

Definition compile_result (out_dir source_path : string) : option string :=
  cc_compile h source_path out_dir [dirname source_path]
    (unit_flags source_path).

Definition compile_event (out_dir source_path : string) : event :=
  EvCompile source_path out_dir [dirname source_path]
    (unit_flags source_path).

(** The first input that does not exist, and the times of those that do. *)
Definition missing (fs : FS) (paths : list string) : option string :=
  find (λ p, bool_decide (fs !! p = None)) paths.

Definition mtimes (fs : FS) (paths : list string) : list Z :=
  omap (fs !!.) paths.

Definition output_mtime (fs : FS) (output_path : string) : Z :=
  default 0 (fs !! output_path).

Definition compiler_setup (c : compiler_class) : list event :=
  EvNewCompiler ::
  match c with
  | UnixCCompiler => [EvSetExecutables "c++"]
  | OtherCCompiler => []
  end.

End Build.

Definition is_link (ev : event) : bool :=
  match ev with EvLink _ _ _ => true | _ => false end.

Definition is_compile (ev : event) : bool :=
  match ev with EvCompile _ _ _ _ => true | _ => false end.

(** The ways a build pass can end, with the run each one leaves. *)
Inductive pass_run {P : PathModule} (h : Host) (output_path : string)
    (cpp : bool) (source_paths : list string) (fs : FS)
  : outcome bool * FS * list event → Prop :=
  | pass_no_distutils msg :
      distutils h = ImportFails →
      pass_run h output_path cpp source_paths fs
        (Raise (RuntimeError msg), fs, [])
  | pass_no_compiler :
      distutils h = NoCompiler →
      pass_run h output_path cpp source_paths fs
        (Raise DistutilsPlatformError, fs, [EvNewCompiler])
  | pass_compile_error c pre s post :
      distutils h = Compiler c →
      source_paths = pre ++ s :: post →
      Forall (λ p, is_Some (compile_result h (tempdir h) p)) pre →
      compile_result h (tempdir h) s = None →
      pass_run h output_path cpp source_paths fs
        (Raise (CompileError s), fs,
         compiler_setup c ++ EvMkTemp (tempdir h) ::
         (compile_event h (tempdir h) <$> pre ++ [s]) ++ [EvRmTemp (tempdir h)])
  | pass_link_error c objs :
      distutils h = Compiler c →
      mapM (compile_result h (tempdir h)) source_paths = Some objs →
      cc_link h objs output_path (if cpp then "c++" else "c") fs = None →
      pass_run h output_path cpp source_paths fs
        (Raise LinkError, fs,
         compiler_setup c ++ EvMkTemp (tempdir h) ::
         (compile_event h (tempdir h) <$> source_paths) ++
         [EvLink objs output_path (if cpp then "c++" else "c");
          EvRmTemp (tempdir h)])
  | pass_built c objs fs' :
      distutils h = Compiler c →
      mapM (compile_result h (tempdir h)) source_paths = Some objs →
      cc_link h objs output_path (if cpp then "c++" else "c") fs = Some fs' →
      pass_run h output_path cpp source_paths fs
        (Return true, fs',
         compiler_setup c ++ EvMkTemp (tempdir h) ::
         (compile_event h (tempdir h) <$> source_paths) ++
         [EvLink objs output_path (if cpp then "c++" else "c");
          EvRmTemp (tempdir h)]).

(** The ways a call of [build_library] can end. *)
Inductive library_run {P : PathModule} (h : Host) (output_path : string)
    (repo_paths : list string) (fs : FS)
  : outcome bool * FS * list event → Prop :=
  | run_no_modules msg :
      repo_paths = [] →
      library_run h output_path repo_paths fs (Raise (ValueError msg), fs, [])
  | run_missing_input p :
      repo_paths ≠ [] →
      missing fs (inputs h fs repo_paths) = Some p →
      library_run h output_path repo_paths fs
        (Raise (FileNotFoundError p), fs, [])
  | run_fresh :
      repo_paths ≠ [] →
      missing fs (inputs h fs repo_paths) = None →
      Forall (λ t, t ≤ output_mtime fs output_path)
             (mtimes fs (inputs h fs repo_paths)) →
      library_run h output_path repo_paths fs (Return false, fs, [])
  | run_stale r :
      repo_paths ≠ [] →
      missing fs (inputs h fs repo_paths) = None →
      Exists (λ t, output_mtime fs output_path < t)
             (mtimes fs (inputs h fs repo_paths)) →
      pass_run h output_path (is_cpp_target fs repo_paths)
        (all_units fs repo_paths).*1 fs r →
      library_run h output_path repo_paths fs r.

(** The result, final file system and log of a run. *)
Definition result_of {A} (r : outcome A * FS * list event) : outcome A := r.1.1.
Definition fs_of {A} (r : outcome A * FS * list event) : FS := r.1.2.
Definition log_of {A} (r : outcome A * FS * list event) : list event := r.2.

Global Instance event_eq_dec : EqDecision event.
Proof. solve_decision. Defined.

(** ** A concrete host and source tree *)

Module Demo.

Definition host : Host := {|
  script_file := "build.py";
  platform_system := "Linux";
  distutils := Compiler UnixCCompiler;
  tempdir := "/tmp/tmpq2x";
  cc_compile := λ s d _ _,
    if bool_decide (s = "vendor/bad/src/parser.c") then None
    else Some (d +:+ "/" +:+ s +:+ ".o");
  cc_link := λ _ out _ fs, Some (<[out := 50]> fs)
|}.

Definition windows_host : Host := {|
  script_file := "build.py";
  platform_system := "Windows";
  distutils := Compiler OtherCCompiler;
  tempdir := "/tmp/tmpq2x";
  cc_compile := cc_compile host;
  cc_link := cc_link host
|}.

Definition tree : FS :=
  list_to_map
    [("build.py", 10);
     ("vendor/a/src/parser.c", 20);
     ("vendor/a/src/scanner.cc", 15);
     ("vendor/a/src/scanner.c", 15);
     ("vendor/b/src/parser.c", 12);
     ("vendor/b/src/scanner.c", 30);
     ("vendor/c/src/parser.c", 5);
     ("vendor/bad/src/parser.c", 7)].

(** The tree with an artifact as old as its newest input. *)
Definition built : FS := <["languages.so" := 30]> tree.

(** A tree whose files all carry the epoch as modification time. *)
Definition epoch_tree : FS :=
  list_to_map [("build.py", 0); ("vendor/c/src/parser.c", 0)].


End Demo.

(** ** The module-level script: reading [repos.txt] and cloning *)

(** Python's [str] methods used on the lines of [repos.txt].  Characters are
    code points below 256. *)
Module Text.

(** [c.isspace()] *)
Definition isspace (c : ascii) : bool :=
  let n := N_of_ascii c in
  ((9 <=? n) && (n <=? 13) || (28 <=? n) && (n <=? 32)
   || (n =? 133) || (n =? 160))%N.

(** [s.split()]: the maximal runs of characters that are not white space. *)
Fixpoint split (s : string) : list string :=
  match s with
  | "" => []
  | String c rest =>
      if isspace c then split rest
      else
        match rest with
        | "" => [String c ""]
        | String c' _ =>
            if isspace c' then String c "" :: split rest
            else
              match split rest with
              | tok :: toks => String c tok :: toks
              | [] => [String c ""]
              end
        end
  end.

(** [s.split(sep)] for a separator of one character. *)
Fixpoint split_on (sep : ascii) (s : string) : list string :=
  match s with
  | "" => [""]
  | String c rest =>
      if bool_decide (c = sep) then "" :: split_on sep rest
      else
        match split_on sep rest with
        | tok :: toks => String c tok :: toks
        | [] => [String c ""]
        end
  end.

(** [s.rstrip(c)] for one character. *)
Fixpoint rstrip (c : ascii) (s : string) : string :=
  match s with
  | "" => ""
  | String x rest =>
      let r := rstrip c rest in
      if bool_decide (r = "") && bool_decide (x = c) then "" else String x r
  end.

Abbreviation chars := String.list_ascii_of_string (only parsing).

(** A string of white space only, and a string without any. *)
Definition blank (s : string) : Prop :=
  Forall (λ c, isspace c = true) (chars s).
Definition solid (s : string) : Prop :=
  Forall (λ c, isspace c = false) (chars s).

End Text.

Module Script.

Inductive error :=
  | ValueError
  | IndexError
  | OSError (path : string)
  | CalledProcessError (cmd : list string).

Inductive result (A : Type) :=
  | Ok (a : A)
  | Err (e : error).
Arguments Ok {A} a.
Arguments Err {A} e.

(** An entry of [repos]: [(url, commit, clone_directory)]. *)
Abbreviation repo := (string * string * string)%type.

(** [url.rstrip("/").split("/")[-1]] *)
Definition last_component (url : string) : result string :=
  match last (Text.split_on "/" (Text.rstrip "/" url)) with
  | Some name => Ok name
  | None => Err IndexError
  end.

(** Body of the loop of lines 12-15. *)
Definition parse_line {P : PathModule} (repos : list repo) (line : string)
  : result (list repo) :=
  match Text.split line with
  | [url; commit] =>
      match last_component url with
      | Ok name => Ok (repos ++ [(url, commit, join "vendor" name)])
      | Err e => Err e
      end
  | _ => Err ValueError
  end.

(** Lines 10-15, on the lines of [repos.txt]. *)
Fixpoint read_repos {P : PathModule} (lines : list string)
    (repos : list repo) : result (list repo) :=
  match lines with
  | [] => Ok repos
  | line :: lines =>
      match parse_line repos line with
      | Ok repos => read_repos lines repos
      | Err e => Err e
      end
  end.

(** What the cloning does to the outside world. *)
Inductive action :=
  | Print (text : string)
  | Makedirs (path : string)
  | Mkdir (path : string)
  | Git (argv : list string) (cwd : string).

(** The disk and the [git] program, as the script sees them. *)
Class Disk (D : Type) := {
  (** [os.path.isdir(p)] *)
  isdir : D → string → bool;
  (** [os.listdir(p)] *)
  listdir : D → string → list string;
  (** [os.path.exists(p)] *)
  exists_ : D → string → bool;
  (** [os.makedirs(p, exist_ok=True)], [None] when it raises *)
  makedirs : D → string → option D;
  (** [os.mkdir(p)], [None] when it raises *)
  mkdir : D → string → option D;
  (** [subprocess.check_call(argv, cwd=cwd)]: whether the command exits with
      status 0, and the disk it leaves *)
  call : D → list string → string → bool * D
}.

Definition IO (D A : Type) : Type := D → result A * D * list action.

Global Instance IO_ret {D} : MRet (IO D) := λ A a d, (Ok a, d, []).

Global Instance IO_bind {D} : MBind (IO D) := λ A B k m d,
  match m d with
  | (Ok a, d1, t1) => match k a d1 with (r, d2, t2) => (r, d2, t1 ++ t2) end
  | (Err e, d1, t1) => (Err e, d1, t1)
  end.

(** The result, final disk and actions of a run. *)
Definition out_of {D A} (r : result A * D * list action) : result A := r.1.1.
Definition disk_of {D A} (r : result A * D * list action) : D := r.1.2.
Definition actions_of {D A} (r : result A * D * list action) : list action :=
  r.2.

(** The line the script expects for an entry. *)
Definition format_line (entry : string * string) : string :=
  entry.1 +:+ " " +:+ entry.2 +:+ String "010" "".

(** What the script relies on: directories do not disappear while it runs,
    and [os.mkdir] leaves the directory it made. *)
Class DiskLaws (D : Type) {disk : Disk D} : Prop := {
  makedirs_keeps (d d' : D) p q :
    makedirs d p = Some d' → exists_ d q = true → exists_ d' q = true;
  mkdir_keeps (d d' : D) p q :
    mkdir d p = Some d' → exists_ d q = true → exists_ d' q = true;
  mkdir_creates (d d' : D) p :
    mkdir d p = Some d' → exists_ d' p = true;
  call_keeps (d d' : D) argv cwd b q :
    call d argv cwd = (b, d') → exists_ d q = true → exists_ d' q = true
}.

(** The commands of lines 33-36 for one entry. *)
Definition git_commands (url commit : string) : list (list string) :=
  [["git"; "init"];
   ["git"; "remote"; "add"; "origin"; url];
   ["git"; "fetch"; "--depth=1"; "origin"; commit];
   ["git"; "checkout"; commit]].

Definition is_print (a : action) : bool :=
  match a with Print _ => true | _ => false end.

(** An action on the directory [dir]: making it, or running a command in it. *)
Definition touches (dir : string) (a : action) : Prop :=
  a = Mkdir dir ∨ ∃ argv, a = Git argv dir.

Section Clone.

Context {D : Type} {disk : Disk D}.

(** [sys.argv[0]] *)
Context (argv0 : string).

Definition print (text : string) : IO D unit := λ d, (Ok tt, d, [Print text]).

Definition os_makedirs (p : string) : IO D unit := λ d,
  match makedirs d p with
  | Some d' => (Ok tt, d', [Makedirs p])
  | None => (Err (OSError p), d, [Makedirs p])
  end.

Definition os_mkdir (p : string) : IO D unit := λ d,
  match mkdir d p with
  | Some d' => (Ok tt, d', [Mkdir p])
  | None => (Err (OSError p), d, [Mkdir p])
  end.

Definition check_call (argv : list string) (cwd : string) : IO D unit := λ d,
  match call d argv cwd with
  | (true, d') => (Ok tt, d', [Git argv cwd])
  | (false, d') => (Err (CalledProcessError argv), d', [Git argv cwd])
  end.

Definition os_path_exists (p : string) : IO D bool := λ d,
  (Ok (exists_ d p), d, []).

(** Body of the loop of lines 23-36. *)
Definition clone (r : repo) : IO D unit :=
  let '(url, commit, clone_directory) := r in
  print "" ;;
  print (argv0 +:+ ": Cloning: " +:+ url +:+ " (commit " +:+ commit
         +:+ ") --> " +:+ clone_directory) ;;
  print "" ;;
  present ← os_path_exists clone_directory;
  if present : bool then mret tt
  else
    os_mkdir clone_directory ;;
    check_call ["git"; "init"] clone_directory ;;
    check_call ["git"; "remote"; "add"; "origin"; url] clone_directory ;;
    check_call ["git"; "fetch"; "--depth=1"; "origin"; commit]
      clone_directory ;;
    check_call ["git"; "checkout"; commit] clone_directory.

Fixpoint clone_each (repos : list repo) : IO D unit :=
  match repos with
  | [] => mret tt
  | r :: repos => clone r ;; clone_each repos
  end.

(** Lines 19-36. *)
Definition clone_repos (repos : list repo) : IO D unit := λ d,
  if isdir d "vendor" && bool_decide (length (listdir d "vendor") = length repos)
  then
    print (argv0 +:+ ": Language repositories have been cloned already.") d
  else (os_makedirs "vendor" ;; clone_each repos) d.

(** What one turn of the loop may do. *)
Record turn_ok (d : D) (r : repo) (run : result unit * D * list action)
  : Prop := {
  turn_actions :
    Forall (λ a, is_print a = true ∨ a = Mkdir r.2 ∨
                 ∃ argv, argv ∈ git_commands r.1.1 r.1.2 ∧ a = Git argv r.2)
           (actions_of run);
  turn_skip :
    exists_ d r.2 = true →
    out_of run = Ok tt ∧ disk_of run = d ∧
    Forall (λ a, is_print a = true) (actions_of run);
  turn_failure :
    ∀ argv, out_of run = Err (CalledProcessError argv) →
      last (actions_of run) = Some (Git argv r.2)
}.

(** What one turn of the loop keeps: what exists, and the directory of its
    entry once it ran a command in it or returned. *)
Record turn_keeps (d : D) (r : repo) (run : result unit * D * list action)
  : Prop := {
  turn_monotone q : exists_ d q = true → exists_ (disk_of run) q = true;
  turn_made :
    out_of run = Ok tt ∨ (∃ argv, Git argv r.2 ∈ actions_of run) →
    exists_ (disk_of run) r.2 = true;
  turn_fresh a :
    a ∈ actions_of run → is_print a = false → exists_ d r.2 = false
}.

End Clone.

End Script.

(** ** More concrete hosts, and a concrete disk *)

(** Hosts whose toolchain is missing or broken. *)
Module DemoHosts.

Definition no_distutils : Host := {|
  script_file := "build.py";
  platform_system := "Linux";
  distutils := ImportFails;
  tempdir := "/tmp/tmpq2x";
  cc_compile := cc_compile Demo.host;
  cc_link := cc_link Demo.host
|}.

Definition broken_linker : Host := {|
  script_file := "build.py";
  platform_system := "Linux";
  distutils := Compiler UnixCCompiler;
  tempdir := "/tmp/tmpq2x";
  cc_compile := cc_compile Demo.host;
  cc_link := λ _ _ _ _, None
|}.

End DemoHosts.

Module DemoDisk.

Import Script.

(** The name of [q] as an entry of the directory [p], when it is one:
    [q] is [p/name] for a name that is not empty and holds no slash. *)
Definition entry_of (p q : string) : option string :=
  let name :=
    String.substring (S (String.length p))
      (String.length q - S (String.length p))%nat q in
  if bool_decide (q = p +:+ "/" +:+ name) && negb (bool_decide (name = ""))
     && bool_decide ("/"%char ∉ String.list_ascii_of_string name)
  then Some name else None.

(** A disk as the set of the directories that exist.  [os.listdir] gives the
    names of the entries of a directory, not what lies deeper; every command
    succeeds but those that name the commit [bad], and [git init] makes the
    [.git] directory of its working directory. *)
Global Instance disk : Disk (gset string) := {|
  isdir d p := bool_decide (p ∈ d);
  listdir d p := omap (entry_of p) (elements d);
  exists_ d p := bool_decide (p ∈ d);
  makedirs d p := Some ({[p]} ∪ d);
  mkdir d p := if bool_decide (p ∈ d) then None else Some ({[p]} ∪ d);
  call d argv cwd :=
    (negb (bool_decide ("bad" ∈ argv)),
     if bool_decide (argv = ["git"; "init"]) then {[cwd +:+ "/.git"]} ∪ d
     else d)
|}.

Definition entries : list (string * string) :=
  [("https://github.com/tree-sitter/tree-sitter-c", "34f4c7e");
   ("https://github.com/tree-sitter/tree-sitter-go/", "64457ea")].

Definition repos : list repo :=
  [("https://github.com/tree-sitter/tree-sitter-c", "34f4c7e",
    "vendor/tree-sitter-c");
   ("https://github.com/tree-sitter/tree-sitter-go/", "64457ea",
    "vendor/tree-sitter-go")].

Definition bad_repos : list repo :=
  [("https://github.com/tree-sitter/tree-sitter-c", "34f4c7e",
    "vendor/tree-sitter-c");
   ("https://github.com/tree-sitter/tree-sitter-go/", "bad",
    "vendor/tree-sitter-go")].

End DemoDisk.


(** * Properties *)

(** ** Strings and paths *)

Lemma chars_app (a b : string) :
  String.list_ascii_of_string (a +:+ b)
  = String.list_ascii_of_string a ++ String.list_ascii_of_string b.
Proof. induction a as [|c a IH]; simpl; [done | by rewrite IH]. Qed.

Lemma chars_length (a : string) :
  length (String.list_ascii_of_string a) = String.length a.
Proof. induction a; simpl; congruence. Qed.

Lemma chars_inj (a b : string) :
  String.list_ascii_of_string a = String.list_ascii_of_string b → a = b.
Proof.
  intros E. rewrite <- (String.string_of_list_ascii_of_string a),
    <- (String.string_of_list_ascii_of_string b). by rewrite E.
Qed.

Lemma append_assoc (a b c : string) : (a +:+ b) +:+ c = a +:+ b +:+ c.
Proof. apply chars_inj. by rewrite !chars_app, app_assoc. Qed.

Lemma endswith_true (s p : string) :
  Str.endswith s p = true ↔ ∃ a, s = a +:+ p.
Proof.
  unfold Str.endswith. rewrite bool_decide_eq_true. split.
  - intros [k E]. exists (String.string_of_list_ascii k).
    apply chars_inj.
    by rewrite chars_app, String.list_ascii_of_string_of_list_ascii.
  - intros [a ->]. exists (String.list_ascii_of_string a). apply chars_app.
Qed.

Lemma endswith_app (a b : string) : Str.endswith (a +:+ b) b = true.
Proof. apply endswith_true. by exists a. Qed.

Lemma endswith_refl (b : string) : Str.endswith b b = true.
Proof. apply endswith_true. by exists "". Qed.

(** Whether [s] ends with [q] is decided by any known ending [p] of [s] that
    is at least as long as [q]. *)
Lemma endswith_via (s p q : string) :
  Str.endswith s p = true →
  (String.length q ≤ String.length p)%nat →
  Str.endswith s q = Str.endswith p q.
Proof.
  unfold Str.endswith. rewrite bool_decide_eq_true. intros Hp Hlen.
  apply bool_decide_ext. split.
  - intros Hq. destruct (suffix_weak_total _ _ _ Hq Hp) as [?|Hpq]; [done|].
    assert (String.list_ascii_of_string p = String.list_ascii_of_string q)
      as ->; [|done].
    apply (anti_symm suffix); [done|].
    destruct Hpq as [k E]. rewrite E.
    assert (k = []) as ->; [|done].
    apply (f_equal length) in E. rewrite length_app in E.
    rewrite !chars_length in E.
    destruct k; [done | simpl in E; lia].
  - intros Hq. by etrans.
Qed.

Instance posix_laws : PathLaws posix.
Proof.
  split. intros a b _. simpl. unfold posixpath.join.
  destruct (Str.startswith b "/"); [apply endswith_refl|].
  destruct (_ || _); [apply endswith_app|].
  rewrite <- append_assoc. apply endswith_app.
Qed.

(** ** The monad *)

Lemma bind_ret_run {A B} (a : A) (k : A → Py B) fs :
  bind (ret a) k fs = k a fs.
Proof. unfold bind, ret. by destruct (k a fs) as [[??]?]. Qed.

Lemma bind_pure_run {A B} (m : Py A) (k : A → Py B) fs a :
  m fs = (Return a, fs, []) → bind m k fs = k a fs.
Proof. unfold bind. intros ->. by destruct (k a fs) as [[??]?]. Qed.

Lemma bind_raise_run {A B} (m : Py A) (k : A → Py B) fs fs' e t :
  m fs = (Raise e, fs', t) → bind m k fs = (Raise e, fs', t).
Proof. unfold bind. by intros ->. Qed.

Lemma bind_return_run {A B} (m : Py A) (k : A → Py B) fs fs' a t :
  m fs = (Return a, fs', t) →
  bind m k fs = (result_of (k a fs'), fs_of (k a fs'), t ++ log_of (k a fs')).
Proof. unfold bind. intros ->. by destruct (k a fs') as [[??]?]. Qed.

Lemma for_each_nil {A S} (body : S → A → Py S) acc :
  for_each body [] acc = ret acc.
Proof. done. Qed.

Lemma for_each_cons {A S} (body : S → A → Py S) x l acc :
  for_each body (x :: l) acc
  = (acc' <- body acc x ;; for_each body l acc').
Proof. done. Qed.

(** ** Reading the file system *)

Lemma path_exists_run fs p :
  path_exists p fs = (Return (bool_decide (is_Some (fs !! p))), fs, []).
Proof. done. Qed.

Lemma read_output_mtime_run fs output_path :
  read_output_mtime output_path fs
  = (Return (output_mtime fs output_path), fs, []).
Proof.
  unfold read_output_mtime, output_mtime.
  rewrite (bind_pure_run _ _ _ _ (path_exists_run _ _)).
  unfold getmtime, ret.
  destruct (fs !! output_path) as [t|] eqn:E; simpl; [|done].
  by rewrite E.
Qed.

Lemma getmtimes_run fs paths :
  comprehension getmtime paths fs =
  match missing fs paths with
  | Some p => (Raise (FileNotFoundError p), fs, [])
  | None => (Return (mtimes fs paths), fs, [])
  end.
Proof.
  unfold missing, mtimes.
  induction paths as [|p paths IH]; simpl; [done|].
  destruct (fs !! p) as [t|] eqn:E.
  - rewrite bool_decide_eq_false_2 by done.
    rewrite (bind_pure_run _ _ _ t); [|unfold getmtime; by rewrite E].
    destruct (find _ paths).
    + by rewrite (bind_raise_run _ _ _ _ _ _ IH).
    + by rewrite (bind_pure_run _ _ _ _ IH).
  - rewrite bool_decide_eq_true_2 by done.
    apply bind_raise_run. unfold getmtime. by rewrite E.
Qed.

Lemma missing_None fs paths :
  missing fs paths = None ↔ Forall (λ p, is_Some (fs !! p)) paths.
Proof.
  unfold missing. induction paths as [|p paths IH]; simpl.
  - split; [constructor | done].
  - rewrite Forall_cons. destruct (fs !! p) eqn:E.
    + rewrite bool_decide_eq_false_2 by done. rewrite IH.
      split; [by eauto | by intros [_ ?]].
    + rewrite bool_decide_eq_true_2 by done.
      split; [done | intros [[??] _]; done].
Qed.

Lemma missing_Some fs paths p :
  missing fs paths = Some p → p ∈ paths ∧ fs !! p = None.
Proof.
  unfold missing. intros Hf. apply find_some in Hf as [Hin Hp].
  apply list_elem_of_In in Hin. by apply bool_decide_eq_true in Hp.
Qed.

Lemma elem_of_mtimes fs paths t :
  t ∈ mtimes fs paths ↔ ∃ p, p ∈ paths ∧ fs !! p = Some t.
Proof. unfold mtimes. apply list_elem_of_omap. Qed.

Lemma foldl_max_le (x : Z) (l : list Z) (b : Z) :
  foldl Z.max x l ≤ b ↔ Forall (λ t, t ≤ b) (x :: l).
Proof.
  revert x. induction l as [|y l IH]; intros x; simpl.
  - rewrite Forall_singleton. done.
  - rewrite IH, !Forall_cons.
    split; [intros [??]; split_and!; [lia | lia | done]
           | intros (?&?&?); split; [lia | done]].
Qed.

(** ** The two loops and the runs of the build *)

Section Runs.

Context {P : PathModule} (h : Host).

Lemma discover_step_run fs cpp acc root :
  discover_step (cpp, acc) root fs =
  (Return (cpp || has_cpp_scanner fs root, acc ++ (module_units fs root).*1),
   fs, []).
Proof.
  unfold discover_step, module_units, has_cpp_scanner, has_c_scanner, src_dir.
  rewrite (bind_pure_run _ _ _ _ (path_exists_run _ _)).
  destruct (bool_decide (is_Some (fs !! join (join root "src") "scanner.cc"))).
  { unfold ret. by rewrite orb_true_r, <- app_assoc. }
  rewrite (bind_pure_run _ _ _ _ (path_exists_run _ _)).
  destruct (bool_decide (is_Some (fs !! join (join root "src") "scanner.c")));
    unfold ret; by rewrite orb_false_r, <- ?app_assoc.
Qed.

Lemma discover_run fs roots cpp acc :
  for_each discover_step roots (cpp, acc) fs =
  (Return (cpp || is_cpp_target fs roots, acc ++ (all_units fs roots).*1),
   fs, []).
Proof.
  unfold is_cpp_target, all_units.
  revert cpp acc. induction roots as [|root roots IH]; intros cpp acc.
  - simpl. unfold ret. by rewrite orb_false_r, app_nil_r.
  - rewrite for_each_cons.
    change (flat_map (module_units fs) (root :: roots))
      with (module_units fs root ++ flat_map (module_units fs) roots).
    change (existsb (has_cpp_scanner fs) (root :: roots))
      with (has_cpp_scanner fs root || existsb (has_cpp_scanner fs) roots).
    rewrite (bind_pure_run _ _ _ _ (discover_step_run _ _ _ _)), IH.
    by rewrite fmap_app, orb_assoc, app_assoc.
Qed.

Lemma compile_step_run d acc s fs :
  compile_step h d acc s fs =
  match compile_result h d s with
  | Some obj => (Return (acc ++ [obj]), fs, [compile_event h d s])
  | None => (Raise (CompileError s), fs, [compile_event h d s])
  end.
Proof.
  unfold compile_step, compile, compile_result, compile_event, bind, emit.
  simpl. by destruct (cc_compile _ _ _ _ _).
Qed.

Lemma compile_loop_ok d srcs objs acc fs :
  mapM (compile_result h d) srcs = Some objs →
  for_each (compile_step h d) srcs acc fs =
  (Return (acc ++ objs), fs, compile_event h d <$> srcs).
Proof.
  revert objs acc. induction srcs as [|s srcs IH]; intros objs acc Hm.
  - injection Hm as <-. simpl. unfold ret. by rewrite app_nil_r.
  - rewrite for_each_cons. simpl in Hm.
    destruct (compile_result h d s) as [o|] eqn:Ho; [|done].
    destruct (mapM _ srcs) as [os|] eqn:Hos; [|done].
    simpl in Hm. injection Hm as <-.
    assert (compile_step h d acc s fs
            = (Return (acc ++ [o]), fs, [compile_event h d s])) as Hs.
    { by rewrite compile_step_run, Ho. }
    rewrite (bind_return_run _ _ _ _ _ _ Hs), (IH os) by done.
    unfold result_of, fs_of, log_of. simpl. by rewrite <- app_assoc.
Qed.

Lemma compile_loop_fail d pre s post acc fs :
  Forall (λ p, is_Some (compile_result h d p)) pre →
  compile_result h d s = None →
  for_each (compile_step h d) (pre ++ s :: post) acc fs =
  (Raise (CompileError s), fs, compile_event h d <$> pre ++ [s]).
Proof.
  intros Hpre Hs. revert acc.
  induction Hpre as [|p pre [o Ho] _ IH]; intros acc;
    simpl app; rewrite for_each_cons.
  - apply bind_raise_run. by rewrite compile_step_run, Hs.
  - assert (compile_step h d acc p fs
            = (Return (acc ++ [o]), fs, [compile_event h d p])) as Hp.
    { by rewrite compile_step_run, Ho. }
    by rewrite (bind_return_run _ _ _ _ _ _ Hp), IH.
Qed.

(** Either every unit compiles, or there is a first one that does not. *)
Lemma compile_all_or_first_failure d srcs :
  (∃ objs, mapM (compile_result h d) srcs = Some objs) ∨
  (∃ pre s post, srcs = pre ++ s :: post ∧
     Forall (λ p, is_Some (compile_result h d p)) pre ∧
     compile_result h d s = None).
Proof.
  induction srcs as [|s srcs IH].
  - left. by exists [].
  - destruct (compile_result h d s) as [o|] eqn:Ho.
    + destruct IH as [[objs Hm] | (pre & s' & post & -> & Hpre & Hs')].
      * left. exists (o :: objs). simpl. by rewrite Ho, Hm.
      * right. exists (s :: pre), s', post. split_and!; [done| |done].
        constructor; eauto.
    + right. exists [], s, srcs. by split_and!.
Qed.

Lemma build_pass_unfold output_path cpp srcs fs :
  build_pass h output_path cpp srcs fs =
  match distutils h with
  | ImportFails =>
      (Raise (RuntimeError
         "Failed to import distutils. You may need to install setuptools."),
       fs, [])
  | NoCompiler => (Raise DistutilsPlatformError, fs, [EvNewCompiler])
  | Compiler c =>
      let '(r, fs', t) :=
        compile_and_link h (tempdir h) output_path cpp srcs fs in
      (match r with Return _ => Return true | Raise e => Raise e end, fs',
       compiler_setup c ++ EvMkTemp (tempdir h) :: t ++ [EvRmTemp (tempdir h)])
  end.
Proof.
  unfold build_pass, new_compiler, with_TemporaryDirectory, compiler_setup.
  unfold bind, emit, ret, raise.
  destruct (distutils h) as [| |c]; [done| done |].
  simpl.
  destruct c; simpl;
    destruct (compile_and_link _ _ _ _ _ _) as [[[[]|e] fs'] t];
    simpl; by rewrite ?app_nil_r.
Qed.

Lemma compile_and_link_unfold d output_path cpp srcs fs objs :
  mapM (compile_result h d) srcs = Some objs →
  compile_and_link h d output_path cpp srcs fs =
  let lang := if cpp then "c++" else "c" in
  match cc_link h objs output_path lang fs with
  | Some fs' =>
      (Return (), fs',
       (compile_event h d <$> srcs) ++ [EvLink objs output_path lang])
  | None =>
      (Raise LinkError, fs,
       (compile_event h d <$> srcs) ++ [EvLink objs output_path lang])
  end.
Proof.
  intros Hm. unfold compile_and_link.
  rewrite (bind_return_run _ _ _ _ _ _ (compile_loop_ok _ _ _ [] fs Hm)).
  unfold link_shared_object, result_of, fs_of, log_of. simpl.
  by destruct (cc_link _ _ _ _ _).
Qed.

Lemma build_pass_cases output_path cpp srcs fs :
  pass_run h output_path cpp srcs fs (build_pass h output_path cpp srcs fs).
Proof.
  rewrite build_pass_unfold.
  destruct (distutils h) as [| |c] eqn:Hd; [by constructor..|].
  destruct (compile_all_or_first_failure (tempdir h) srcs)
    as [[objs Hm] | (pre & s & post & -> & Hpre & Hs)].
  - rewrite (compile_and_link_unfold _ _ _ _ _ _ Hm). simpl.
    destruct (cc_link _ _ _ _ _) as [fs'|] eqn:Hl; rewrite <- app_assoc.
    + by apply pass_built.
    + by apply pass_link_error.
  - unfold compile_and_link.
    rewrite (bind_raise_run _ _ _ _ _ _
               (compile_loop_fail _ _ _ post [] fs Hpre Hs)).
    by eapply pass_compile_error.
Qed.

Lemma build_library_unfold output_path repo_paths fs :
  build_library h output_path repo_paths fs =
  if bool_decide (repo_paths = []) then
    (Raise (ValueError "Must provide at least one language folder"), fs, [])
  else
    match missing fs (inputs h fs repo_paths) with
    | Some p => (Raise (FileNotFoundError p), fs, [])
    | None =>
        if bool_decide (Forall (λ t, t ≤ output_mtime fs output_path)
                               (mtimes fs (inputs h fs repo_paths)))
        then (Return false, fs, [])
        else build_pass h output_path (is_cpp_target fs repo_paths)
               (all_units fs repo_paths).*1 fs
    end.
Proof.
  unfold build_library.
  rewrite (bind_pure_run _ _ _ _ (read_output_mtime_run _ _)).
  case_bool_decide as Hne; [done|].
  rewrite (bind_pure_run _ _ _ _ (discover_run _ _ _ _)).
  simpl app. simpl orb. fold (inputs h fs repo_paths).
  pose proof (getmtimes_run fs (inputs h fs repo_paths)) as Hg.
  destruct (missing fs (inputs h fs repo_paths)) as [p|] eqn:Hmiss.
  { by rewrite (bind_raise_run _ _ _ _ _ _ Hg). }
  rewrite (bind_pure_run _ _ _ _ Hg).
  destruct (mtimes fs (inputs h fs repo_paths)) as [|t ts] eqn:Hts.
  { unfold inputs, mtimes in Hts. simpl in Hts.
    apply missing_None, Forall_cons in Hmiss as [[t Ht] _].
    by rewrite Ht in Hts. }
  simpl py_max. rewrite bind_ret_run.
  rewrite (bool_decide_ext _ _ (foldl_max_le t ts _)).
  by case_bool_decide.
Qed.

Lemma build_library_cases output_path repo_paths fs :
  library_run h output_path repo_paths fs
    (build_library h output_path repo_paths fs).
Proof.
  rewrite build_library_unfold.
  case_bool_decide as Hne; [by constructor|].
  destruct (missing fs (inputs h fs repo_paths)) as [p|] eqn:Hmiss;
    [by constructor|].
  case_bool_decide as Hle.
  - by apply run_fresh.
  - apply run_stale; [done..| |apply build_pass_cases].
    apply not_Forall_Exists in Hle; [|apply _].
    eapply Exists_impl; [exact Hle|]. simpl. intros; lia.
Qed.

(** A build pass compiles and links or raises: it never answers [False]. *)
Lemma pass_run_not_false output_path cpp srcs fs r :
  pass_run h output_path cpp srcs fs r → result_of r ≠ Return false.
Proof. by destruct 1. Qed.

Lemma build_pass_not_fresh output_path cpp srcs fs :
  build_pass h output_path cpp srcs fs ≠ (Return false, fs, []).
Proof.
  intros E. by apply (pass_run_not_false _ _ _ _ _ (build_pass_cases
    output_path cpp srcs fs)); rewrite E.
Qed.

Lemma parser_in_inputs fs roots root :
  root ∈ roots → join (src_dir root) "parser.c" ∈ inputs h fs roots.
Proof.
  intros Hin. unfold inputs, all_units. apply list_elem_of_further.
  apply list_elem_of_fmap. exists (join (src_dir root) "parser.c", C).
  split; [done|]. apply list_elem_of_In, in_flat_map.
  exists root. split; [by apply list_elem_of_In|]. by left.
Qed.

(** The staleness test in terms of the inputs themselves. *)
Lemma fresh_iff fs paths (b : Z) :
  Forall (λ t, t ≤ b) (mtimes fs paths)
  ↔ ∀ p t, p ∈ paths → fs !! p = Some t → t ≤ b.
Proof.
  rewrite Forall_forall. split.
  - intros Hall p t Hp Ht. apply Hall, elem_of_mtimes. eauto.
  - intros Hall t (p & Hp & Ht)%elem_of_mtimes. eauto.
Qed.

End Runs.

(** ** Names of the discovered files *)

Section Names.

Context {P : PathModule} {L : PathLaws P}.

(** The last characters of a joined path are those of its file name. *)
Lemma join_endswith (a name q : string) :
  plain_name name = true →
  (String.length q ≤ String.length name)%nat →
  Str.endswith (join a name) q = Str.endswith name q.
Proof. intros Hn Hq. apply endswith_via; [by apply join_keeps_name | done]. Qed.

Lemma join_name_ne (a b name1 name2 q : string) :
  plain_name name1 = true → plain_name name2 = true →
  (String.length q ≤ String.length name1)%nat →
  (String.length q ≤ String.length name2)%nat →
  Str.endswith name1 q ≠ Str.endswith name2 q →
  join a name1 ≠ join b name2.
Proof.
  intros H1 H2 Hq1 Hq2 Hne E. apply Hne.
  by rewrite <- (join_endswith a name1 q), <- (join_endswith b name2 q), E.
Qed.

Lemma dialect_parser (src : string) : dialect_of (join src "parser.c") = C.
Proof.
  unfold dialect_of.
  rewrite join_endswith; [by vm_compute | by vm_compute | simpl; lia].
Qed.

Lemma dialect_scanner_c (src : string) : dialect_of (join src "scanner.c") = C.
Proof.
  unfold dialect_of.
  rewrite join_endswith; [by vm_compute | by vm_compute | simpl; lia].
Qed.

Lemma dialect_scanner_cc (src : string) :
  dialect_of (join src "scanner.cc") = Cpp.
Proof.
  unfold dialect_of.
  rewrite join_endswith; [by vm_compute | by vm_compute | simpl; lia].
Qed.

Lemma scanner_c_not_parser (a b : string) :
  join a "scanner.c" ≠ join b "parser.c".
Proof.
  apply (join_name_ne _ _ _ _ "ser.c");
    [by vm_compute | by vm_compute | simpl; lia | simpl; lia | by vm_compute].
Qed.

Lemma scanner_c_not_scanner_cc (a b : string) :
  join a "scanner.c" ≠ join b "scanner.cc".
Proof.
  apply (join_name_ne _ _ _ _ ".c");
    [by vm_compute | by vm_compute | simpl; lia | simpl; lia | by vm_compute].
Qed.

End Names.

(** ** [posixpath]: where the discovered files lie *)

Module posix_facts.

Lemma append_cons (c : ascii) (a b : string) :
  String c a +:+ b = String c (a +:+ b).
Proof. done. Qed.

Lemma append_nonempty (a : string) (c : ascii) (b : string) :
  a +:+ String c b ≠ "".
Proof. by destruct a. Qed.

(** A directory made by [join] with the component [src]. *)
Lemma join_src (root : string) : ∃ x, posixpath.join root "src" = x +:+ "src".
Proof.
  unfold posixpath.join.
  replace (Str.startswith "src" "/") with false by (by vm_compute).
  destruct (_ || _); [by exists root|].
  exists (root +:+ "/"). by rewrite append_assoc.
Qed.

Lemma join_under_src (x name : string) :
  Str.startswith name "/" = false →
  posixpath.join (x +:+ "src") name = (x +:+ "src") +:+ "/" +:+ name.
Proof.
  intros Hn. unfold posixpath.join. rewrite Hn.
  rewrite bool_decide_eq_false_2 by apply append_nonempty.
  rewrite (endswith_via _ "src" "/"); [| apply endswith_app | simpl; lia].
  by replace (Str.endswith "src" "/") with false by (by vm_compute).
Qed.

Lemma head_of_under (a name : string) :
  posixpath.head_of name = "" →
  posixpath.head_of (a +:+ "/" +:+ name) = a +:+ "/".
Proof.
  intros Hn. induction a as [|c a IH].
  - change ("" +:+ "/" +:+ name) with (String "/" name).
    simpl. by rewrite Hn.
  - rewrite !(append_cons c a). simpl. rewrite IH.
    rewrite (bool_decide_eq_false_2 (a +:+ "/" = ""))
      by apply append_nonempty.
    by rewrite orb_true_r.
Qed.

Lemma all_sep_src (x : string) : posixpath.all_sep (x +:+ "src/") = false.
Proof.
  induction x as [|c x IH]; [by vm_compute|].
  rewrite (append_cons c x). simpl. by rewrite IH, andb_false_r.
Qed.

Lemma rstrip_sep_src (x : string) :
  posixpath.rstrip_sep (x +:+ "src/") = x +:+ "src".
Proof.
  induction x as [|c x IH]; [by vm_compute|].
  rewrite !(append_cons c x). simpl. rewrite IH.
  by rewrite (bool_decide_eq_false_2 (x +:+ "src" = ""))
    by apply append_nonempty.
Qed.

(** The containing directory of a file discovered under [<root>/src] is
    [<root>/src] itself. *)
Lemma dirname_unit (root name : string) :
  Str.startswith name "/" = false →
  posixpath.head_of name = "" →
  posixpath.dirname (posixpath.join (posixpath.join root "src") name)
  = posixpath.join root "src".
Proof.
  intros Hn Hh. destruct (join_src root) as [x ->].
  rewrite join_under_src by done. unfold posixpath.dirname.
  rewrite head_of_under by done.
  rewrite (bool_decide_eq_false_2 (_ = "")) by apply append_nonempty.
  rewrite append_assoc. change ("src" +:+ "/") with "src/".
  by rewrite all_sep_src, rstrip_sep_src.
Qed.

(** So under [posixpath] every unit is compiled with [<root>/src] as its
    include directory. *)
Lemma include_dir_of_unit (root name : string) :
  name ∈ ["parser.c"; "scanner.cc"; "scanner.c"] →
  @dirname posix (@join posix (@src_dir posix root) name)
  = @src_dir posix root.
Proof.
  intros Hn. apply dirname_unit;
    repeat (apply elem_of_cons in Hn as [-> | Hn]; [by vm_compute|]);
    by apply elem_of_nil in Hn.
Qed.

End posix_facts.

Lemma module_units_length {P : PathModule} (fs : FS) (root : string) :
  (1 ≤ length (module_units fs root) ≤ 2)%nat.
Proof.
  unfold module_units.
  destruct (has_cpp_scanner fs root), (has_c_scanner fs root); simpl; lia.
Qed.

Lemma all_units_length {P : PathModule} (fs : FS) (roots : list string) :
  (length roots ≤ length (all_units fs roots) ≤ 2 * length roots)%nat.
Proof.
  unfold all_units. induction roots as [|root roots IH]; [simpl; lia|].
  change (flat_map (module_units fs) (root :: roots))
    with (module_units fs root ++ flat_map (module_units fs) roots).
  rewrite length_app, length_cons.
  pose proof (module_units_length fs root). lia.
Qed.

(** ** What the log of a run holds *)

Section Logs.

Context {P : PathModule} (h : Host).

Lemma no_link_in_setup c : List.filter is_link (compiler_setup c) = [].
Proof. by destruct c. Qed.

Lemma no_link_in_compiles d srcs :
  List.filter is_link (compile_event h d <$> srcs) = [].
Proof. induction srcs as [|s srcs IH]; [done|]. simpl. exact IH. Qed.

Lemma no_compile_in_setup c : List.filter is_compile (compiler_setup c) = [].
Proof. by destruct c. Qed.

Lemma all_compile_in_compiles d srcs :
  List.filter is_compile (compile_event h d <$> srcs)
  = compile_event h d <$> srcs.
Proof. induction srcs as [|s srcs IH]; [done|]. simpl. f_equal. exact IH. Qed.

Lemma compile_in_setup c s d incl flags :
  EvCompile s d incl flags ∉ compiler_setup c.
Proof.
  unfold compiler_setup. destruct c;
    rewrite ?not_elem_of_cons; split_and?; try done; apply not_elem_of_nil.
Qed.

Lemma compile_in_pass_log c d evs tail s d' incl flags :
  EvCompile s d' incl flags ∈ compiler_setup c ++ EvMkTemp d :: evs ++ tail →
  List.filter is_compile tail = [] →
  EvCompile s d' incl flags ∈ evs.
Proof.
  intros Hin Htail.
  apply elem_of_app in Hin as [Hin | Hin];
    [by apply compile_in_setup in Hin|].
  apply elem_of_cons in Hin as [? | Hin]; [done|].
  apply elem_of_app in Hin as [Hin | Hin]; [done|].
  assert (EvCompile s d' incl flags ∈ List.filter is_compile tail) as Hf.
  { apply list_elem_of_In, filter_In. by rewrite <- list_elem_of_In. }
  rewrite Htail in Hf. by apply elem_of_nil in Hf.
Qed.

Lemma link_in_setup c objs out lang : EvLink objs out lang ∉ compiler_setup c.
Proof.
  unfold compiler_setup. destruct c;
    rewrite ?not_elem_of_cons; split_and?; try done; apply not_elem_of_nil.
Qed.

(** Every compilation in the log of a pass is the compilation of one of its
    sources, with the arguments [compile] gives it. *)
Lemma pass_run_compile_events output_path cpp srcs fs r s d incl flags :
  pass_run h output_path cpp srcs fs r →
  EvCompile s d incl flags ∈ log_of r →
  s ∈ srcs ∧ EvCompile s d incl flags = compile_event h (tempdir h) s.
Proof.
  assert (∀ l : list string,
    EvCompile s d incl flags ∈ compile_event h (tempdir h) <$> l →
    s ∈ l ∧ EvCompile s d incl flags = compile_event h (tempdir h) s) as Hev.
  { intros l (s' & E & Hs')%list_elem_of_fmap.
    assert (s = s') as -> by (unfold compile_event in E; congruence). done. }
  destruct 1; unfold log_of; cbn [snd]; intros Hin.
  - by apply elem_of_nil in Hin.
  - apply elem_of_cons in Hin as [? | Hin]; [done|].
    by apply elem_of_nil in Hin.
  - apply compile_in_pass_log in Hin; [|done].
    apply Hev in Hin as [Hin ?]. split; [|done]. subst srcs.
    apply elem_of_app in Hin as [? | Hin]; apply elem_of_app; [by left|].
    right. apply elem_of_cons in Hin as [-> | Hin]; [by left|].
    by apply elem_of_nil in Hin.
  - apply compile_in_pass_log in Hin; [by apply Hev | done].
  - apply compile_in_pass_log in Hin; [by apply Hev | done].
Qed.

Lemma mapM_compile_Some d srcs objs s :
  mapM (compile_result h d) srcs = Some objs → s ∈ srcs →
  is_Some (compile_result h d s).
Proof.
  intros Hm Hs. assert (is_Some (mapM (compile_result h d) srcs)) as Hsome
    by eauto.
  apply mapM_is_Some in Hsome. rewrite Forall_forall in Hsome.
  by apply Hsome.
Qed.


End Logs.

(** * The claims *)

Section Claims.

Context {P : PathModule}.

(** C5: a call with an empty module list raises [ValueError], whatever the
    file system holds (artifact present or not) and whatever the staleness
    comparison would say; the log is empty, so no compiler was obtained and
    nothing was compiled or linked. *)
Theorem empty_module_list_is_fatal (h : Host) (output_path : string) (fs : FS) :
  build_library h output_path [] fs
  = (Raise (ValueError "Must provide at least one language folder"), fs, []).
Proof. by rewrite build_library_unfold. Qed.

(** C7: when some module root of the list lacks [src/parser.c], the call
    raises the error of the first input that does not exist and its log is
    empty: no unit of the pass is compiled. *)
Theorem missing_parser_is_fatal (h : Host) (output_path : string)
    (repo_paths : list string) (root : string) (fs : FS) :
  root ∈ repo_paths →
  fs !! join (src_dir root) "parser.c" = None →
  ∃ p, p ∈ inputs h fs repo_paths ∧ fs !! p = None ∧
    build_library h output_path repo_paths fs
    = (Raise (FileNotFoundError p), fs, []).
Proof.
  intros Hroot Hnone. rewrite build_library_unfold.
  rewrite bool_decide_eq_false_2 by (intros ->; by apply elem_of_nil in Hroot).
  destruct (missing fs (inputs h fs repo_paths)) as [p|] eqn:Hmiss.
  - apply missing_Some in Hmiss as [??]. by exists p.
  - rewrite missing_None, Forall_forall in Hmiss.
    destruct (Hmiss _ (parser_in_inputs h fs _ _ Hroot)) as [t Ht].
    by rewrite Hnone in Ht.
Qed.

(** C1: for a non-empty module list whose inputs (the build script and
    every discovered source) all exist, with [newest] the maximum of their
    modification times: the call runs the build pass exactly when [newest]
    is strictly greater than the artifact's time, and otherwise returns
    [False] with an empty log; equal times count as fresh. *)
Theorem rebuild_iff_strictly_newer (h : Host) (output_path : string)
    (repo_paths : list string) (fs : FS) (newest : Z) :
  repo_paths ≠ [] →
  Forall (λ p, is_Some (fs !! p)) (inputs h fs repo_paths) →
  newest ∈ mtimes fs (inputs h fs repo_paths) →
  Forall (λ t, t ≤ newest) (mtimes fs (inputs h fs repo_paths)) →
  (output_mtime fs output_path < newest ↔
     build_library h output_path repo_paths fs
     = build_pass h output_path (is_cpp_target fs repo_paths)
         (all_units fs repo_paths).*1 fs) ∧
  (newest ≤ output_mtime fs output_path ↔
     build_library h output_path repo_paths fs = (Return false, fs, [])) ∧
  (newest = output_mtime fs output_path →
     build_library h output_path repo_paths fs = (Return false, fs, [])).
Proof.
  intros Hne Hex Hin Hmax. rewrite build_library_unfold.
  rewrite bool_decide_eq_false_2 by done.
  apply missing_None in Hex. rewrite Hex.
  assert (Forall (λ t, t ≤ output_mtime fs output_path)
            (mtimes fs (inputs h fs repo_paths))
          ↔ newest ≤ output_mtime fs output_path) as Hfresh.
  { rewrite !Forall_forall in *. split; [by auto|].
    intros Hle t Ht. specialize (Hmax t Ht). lia. }
  case_bool_decide as Hd; rewrite Hfresh in Hd.
  - split_and!; [|done|done].
    split; [lia|]. intros E. symmetry in E.
    by apply build_pass_not_fresh in E.
  - split_and!; [split; [done | lia] | | lia].
    split; [done|]. intros E. by apply build_pass_not_fresh in E.
Qed.

(** C10: when the artifact does not exist its time is read as 0, so (for a
    non-empty module list whose inputs all exist) the build pass runs exactly
    when some input's modification time is strictly greater than 0; when
    every input has time exactly 0 the call returns [False] with an empty
    log although there is no artifact. *)
Theorem absent_artifact_reads_as_epoch (h : Host) (output_path : string)
    (repo_paths : list string) (fs : FS) :
  fs !! output_path = None →
  repo_paths ≠ [] →
  Forall (λ p, is_Some (fs !! p)) (inputs h fs repo_paths) →
  read_output_mtime output_path fs = (Return 0, fs, []) ∧
  ((∃ p t, p ∈ inputs h fs repo_paths ∧ fs !! p = Some t ∧ 0 < t) ↔
     build_library h output_path repo_paths fs
     = build_pass h output_path (is_cpp_target fs repo_paths)
         (all_units fs repo_paths).*1 fs) ∧
  ((∀ p, p ∈ inputs h fs repo_paths → fs !! p = Some 0) →
     build_library h output_path repo_paths fs = (Return false, fs, [])).
Proof.
  intros Hout Hne Hex.
  assert (output_mtime fs output_path = 0) as Hzero.
  { unfold output_mtime. by rewrite Hout. }
  split; [by rewrite read_output_mtime_run, Hzero|].
  rewrite build_library_unfold, bool_decide_eq_false_2 by done.
  apply missing_None in Hex. rewrite Hex, Hzero.
  case_bool_decide as Hd.
  - rewrite fresh_iff in Hd. split; [|done]. split.
    + intros (p & t & Hp & Ht & Hpos). specialize (Hd p t Hp Ht). lia.
    + intros E. symmetry in E. by apply build_pass_not_fresh in E.
  - split.
    + split; [done|]. intros _.
      apply not_Forall_Exists in Hd; [|apply _].
      apply Exists_exists in Hd as (t & Ht & Hpos).
      apply elem_of_mtimes in Ht as (p & Hp & Ht).
      exists p, t. simpl in Hpos. split_and!; [done..|lia].
    + intros Hall. exfalso. apply Hd, fresh_iff. intros p t Hp Ht.
      rewrite (Hall p Hp) in Ht. by injection Ht as <-.
Qed.

(** C2: discovery yields, module by module and in the order of the list,
    first [<root>/src/parser.c] (dialect C, always), then [scanner.cc]
    (dialect C++) when it exists, else [scanner.c] (dialect C) when it
    exists, else nothing more; the C++ flag of the build is set exactly when
    some module has a [scanner.cc]. *)
Theorem discovery_follows_convention (L : PathLaws P) (fs : FS)
    (repo_paths : list string) :
  for_each discover_step repo_paths (false, []) fs
  = (Return (is_cpp_target fs repo_paths, (all_units fs repo_paths).*1),
     fs, []) ∧
  all_units fs repo_paths = flat_map (module_units fs) repo_paths ∧
  (∀ root,
     module_units fs root =
     (join (join root "src") "parser.c", C) ::
     match fs !! join (join root "src") "scanner.cc",
           fs !! join (join root "src") "scanner.c" with
     | Some _, _ => [(join (join root "src") "scanner.cc", Cpp)]
     | None, Some _ => [(join (join root "src") "scanner.c", C)]
     | None, None => []
     end) ∧
  Forall (λ u, dialect_of u.1 = u.2) (all_units fs repo_paths) ∧
  (is_cpp_target fs repo_paths = true ↔
     ∃ root, root ∈ repo_paths ∧
       is_Some (fs !! join (join root "src") "scanner.cc")).
Proof.
  split_and!.
  - by rewrite discover_run, app_nil_l.
  - done.
  - intros root. unfold module_units, has_cpp_scanner, has_c_scanner, src_dir.
    destruct (fs !! join (join root "src") "scanner.cc"),
      (fs !! join (join root "src") "scanner.c"); simpl; try done.
  - unfold all_units. apply Forall_forall. intros [p d] Hin.
    apply list_elem_of_In, in_flat_map in Hin as (root & _ & Hin).
    unfold module_units in Hin. simpl.
    destruct Hin as [E | Hin]; [injection E as <- <-; apply dialect_parser|].
    destruct (has_cpp_scanner fs root).
    { destruct Hin as [E | []]. injection E as <- <-.
      apply dialect_scanner_cc. }
    destruct (has_c_scanner fs root); [|done].
    destruct Hin as [E | []]. injection E as <- <-. apply dialect_scanner_c.
  - unfold is_cpp_target. rewrite existsb_exists. unfold has_cpp_scanner.
    split; intros (root & Hin & Hs); exists root.
    + apply bool_decide_eq_true in Hs. by rewrite list_elem_of_In.
    + rewrite bool_decide_eq_true. by rewrite <- list_elem_of_In.
Qed.

(** C9: when a module has both [scanner.cc] and [scanner.c], its turn of the
    discovery loop appends [parser.c] and [scanner.cc] only, and sets the C++
    flag; [scanner.c] is not among them.  In every case a turn of the loop
    appends at most two units. *)
Theorem cpp_scanner_shadows_c_scanner (L : PathLaws P) (fs : FS)
    (root : string) (cpp : bool) (acc : list string) :
  is_Some (fs !! join (join root "src") "scanner.cc") →
  is_Some (fs !! join (join root "src") "scanner.c") →
  discover_step (cpp, acc) root fs
  = (Return (true, acc ++ [join (join root "src") "parser.c";
                           join (join root "src") "scanner.cc"]), fs, []) ∧
  module_units fs root = [(join (join root "src") "parser.c", C);
                          (join (join root "src") "scanner.cc", Cpp)] ∧
  (join (join root "src") "scanner.c" ∉ (module_units fs root).*1) ∧
  (∀ fs' root' cpp' acc', ∃ cpp'' added,
     discover_step (cpp', acc') root' fs'
     = (Return (cpp'', acc' ++ added), fs', []) ∧ (length added ≤ 2)%nat) ∧
  (∀ fs' roots, (length (all_units fs' roots) ≤ 2 * length roots)%nat).
Proof.
  intros Hcc Hc.
  assert (module_units fs root = [(join (join root "src") "parser.c", C);
            (join (join root "src") "scanner.cc", Cpp)]) as Hunits.
  { unfold module_units, has_cpp_scanner, src_dir.
    by rewrite bool_decide_eq_true_2. }
  split_and!.
  - rewrite discover_step_run, Hunits. unfold has_cpp_scanner, src_dir.
    by rewrite bool_decide_eq_true_2, orb_true_r.
  - done.
  - rewrite Hunits. simpl. rewrite !not_elem_of_cons. split_and!.
    + apply scanner_c_not_parser.
    + apply scanner_c_not_scanner_cc.
    + apply not_elem_of_nil.
  - intros fs' root' cpp' acc'.
    exists (cpp' || has_cpp_scanner fs' root'), (module_units fs' root').*1.
    split; [apply discover_step_run|].
    rewrite length_fmap. apply module_units_length.
  - intros fs' roots. apply all_units_length.
Qed.

(** C4: every compilation a call performs is given the directory of its own
    source as the only include directory; on Windows it gets no extra flags,
    elsewhere exactly [-fPIC] followed by [-std=c11] when the source path
    ends in [.c] and by [-std=c++11] otherwise.  The compiled source is one
    of the discovered units and the object goes to the temporary directory. *)
Theorem compile_flags_and_include_dir (h : Host) (output_path : string)
    (repo_paths : list string) (fs : FS) (source out_dir : string)
    (include_dirs : list string) (flags : option (list string)) :
  EvCompile source out_dir include_dirs flags
    ∈ log_of (build_library h output_path repo_paths fs) →
  include_dirs = [dirname source] ∧
  (platform_system h = "Windows" → flags = None) ∧
  (platform_system h ≠ "Windows" → Str.endswith source ".c" = true →
     flags = Some ["-fPIC"; "-std=c11"]) ∧
  (platform_system h ≠ "Windows" → Str.endswith source ".c" = false →
     flags = Some ["-fPIC"; "-std=c++11"]) ∧
  source ∈ (all_units fs repo_paths).*1 ∧
  out_dir = tempdir h.
Proof.
  intros Hin.
  destruct (build_library_cases h output_path repo_paths fs)
    as [msg ?|p ? ?|? ? ?|r ? ? ? Hpass];
    try (by apply elem_of_nil in Hin).
  apply (pass_run_compile_events _ _ _ _ _ _ _ _ _ _ Hpass) in Hin
    as [Hsrc E].
  unfold compile_event, unit_flags in E. injection E as -> -> ->.
  split_and!; try done.
  - intros ->. by rewrite bool_decide_eq_true_2.
  - intros Hw ->. by rewrite bool_decide_eq_false_2.
  - intros Hw ->. by rewrite bool_decide_eq_false_2.
Qed.

(** C6: when a compilation of the call fails, the call raises the compile
    error of that unit and leaves the file system as it was; the units before
    it were compiled, those after it were not, the linker was not called, and
    the last event of the log is the removal of the temporary directory. *)
Theorem compile_failure_aborts_pass (h : Host) (output_path : string)
    (repo_paths : list string) (fs : FS) (source out_dir : string)
    (include_dirs : list string) (flags : option (list string)) :
  EvCompile source out_dir include_dirs flags
    ∈ log_of (build_library h output_path repo_paths fs) →
  cc_compile h source out_dir include_dirs flags = None →
  ∃ c pre post,
    (all_units fs repo_paths).*1 = pre ++ source :: post ∧
    Forall (λ p, is_Some (compile_result h (tempdir h) p)) pre ∧
    build_library h output_path repo_paths fs
    = (Raise (CompileError source), fs,
       compiler_setup c ++ EvMkTemp (tempdir h) ::
       (compile_event h (tempdir h) <$> pre ++ [source]) ++
       [EvRmTemp (tempdir h)]) ∧
    List.filter is_link (log_of (build_library h output_path repo_paths fs))
    = [] ∧
    last (log_of (build_library h output_path repo_paths fs))
    = Some (EvRmTemp (tempdir h)).
Proof.
  intros Hin Hfail.
  destruct (build_library_cases h output_path repo_paths fs)
    as [msg ?|p ? ?|? ? ?|r ? ? ? Hpass];
    try (by apply elem_of_nil in Hin).
  pose proof (pass_run_compile_events _ _ _ _ _ _ _ _ _ _ Hpass Hin)
    as [Hsrc E].
  unfold compile_event in E. injection E as -> -> ->.
  fold (compile_result h (tempdir h) source) in Hfail.
  destruct Hpass as [| |c pre s post Hd Hsrcs Hpre Hs|c objs Hd Hm|c objs ? Hd Hm].
  - by apply elem_of_nil in Hin.
  - apply elem_of_cons in Hin as [? | Hin]; [done|].
    by apply elem_of_nil in Hin.
  - assert (source = s) as ->.
    { unfold log_of in Hin; cbn [snd] in Hin.
      apply compile_in_pass_log in Hin; [|done].
      apply list_elem_of_fmap in Hin as (s' & E & Hin).
      assert (source = s') as <- by (unfold compile_event in E; congruence).
      apply elem_of_app in Hin as [Hin | Hin].
      - rewrite Forall_forall in Hpre. destruct (Hpre _ Hin) as [o Ho].
        by rewrite Hfail in Ho.
      - apply elem_of_cons in Hin as [-> | Hin]; [done|].
        by apply elem_of_nil in Hin. }
    exists c, pre, post. split_and!; [done..| |].
    + unfold log_of; cbn [snd].
      rewrite List.filter_app, no_link_in_setup. simpl.
      by rewrite List.filter_app, no_link_in_compiles.
    + unfold log_of; cbn [snd].
      rewrite app_comm_cons, app_assoc. apply last_snoc.
  - destruct (mapM_compile_Some _ _ _ _ _ Hm Hsrc) as [o Ho].
    by rewrite Hfail in Ho.
  - destruct (mapM_compile_Some _ _ _ _ _ Hm Hsrc) as [o Ho].
    by rewrite Hfail in Ho.
Qed.

(** C3: when the log of a call holds a call of the linker, it holds exactly
    one, placed after the compilation of every discovered unit; its objects
    are the objects of those compilations, in order, its output is the
    artifact, and its target language is C++ when some module of the list has
    a [scanner.cc] and C otherwise. *)
Theorem link_once_with_inferred_target (h : Host) (output_path : string)
    (repo_paths : list string) (fs : FS) (objects : list string)
    (output target_lang : string) :
  EvLink objects output target_lang
    ∈ log_of (build_library h output_path repo_paths fs) →
  (∃ c, log_of (build_library h output_path repo_paths fs)
        = compiler_setup c ++ EvMkTemp (tempdir h) ::
          (compile_event h (tempdir h) <$> (all_units fs repo_paths).*1) ++
          [EvLink objects output target_lang; EvRmTemp (tempdir h)]) ∧
  List.filter is_link (log_of (build_library h output_path repo_paths fs))
  = [EvLink objects output target_lang] ∧
  mapM (compile_result h (tempdir h)) (all_units fs repo_paths).*1
  = Some objects ∧
  output = output_path ∧
  target_lang = (if is_cpp_target fs repo_paths then "c++" else "c") ∧
  ((∃ root, root ∈ repo_paths ∧
      is_Some (fs !! join (join root "src") "scanner.cc")) →
   target_lang = "c++") ∧
  ((∀ root, root ∈ repo_paths →
      fs !! join (join root "src") "scanner.cc" = None) →
   target_lang = "c").
Proof.
  intros Hin.
  assert (∀ c d evs tail,
    EvLink objects output target_lang
      ∈ compiler_setup c ++ EvMkTemp d :: (compile_event h d <$> evs) ++ tail →
    EvLink objects output target_lang ∈ tail) as Htail.
  { intros c d evs tail H.
    apply elem_of_app in H as [H | H]; [by apply link_in_setup in H|].
    apply elem_of_cons in H as [? | H]; [done|].
    apply elem_of_app in H as [H | H]; [|done].
    by apply list_elem_of_fmap in H as (? & ? & ?). }
  assert (is_cpp_target fs repo_paths = true ↔
    ∃ root, root ∈ repo_paths ∧
      is_Some (fs !! join (join root "src") "scanner.cc")) as Hcpp.
  { unfold is_cpp_target. rewrite existsb_exists. unfold has_cpp_scanner.
    split; intros (root & Hroot & Hs); exists root.
    - apply bool_decide_eq_true in Hs. by rewrite list_elem_of_In.
    - rewrite bool_decide_eq_true. by rewrite <- list_elem_of_In. }
  assert ((∃ root, root ∈ repo_paths ∧
             is_Some (fs !! join (join root "src") "scanner.cc")) →
          (if is_cpp_target fs repo_paths then "c++" else "c") = "c++")
    as Hlang1.
  { intros Hex. apply Hcpp in Hex. by rewrite Hex. }
  assert ((∀ root, root ∈ repo_paths →
             fs !! join (join root "src") "scanner.cc" = None) →
          (if is_cpp_target fs repo_paths then "c++" else "c") = "c")
    as Hlang2.
  { intros Hno.
    destruct (decide (is_cpp_target fs repo_paths = true)) as [E | E].
    - apply Hcpp in E as (root & Hroot & [t Ht]).
      by rewrite (Hno root Hroot) in Ht.
    - by apply not_true_is_false in E as ->. }
  clear Hcpp.
  destruct (build_library_cases h output_path repo_paths fs)
    as [msg ?|p ? ?|? ? ?|r ? ? ? Hpass];
    try (by apply elem_of_nil in Hin).
  destruct Hpass as [| |c pre s post Hd Hsrcs Hpre Hs|c objs Hd Hm|c objs ? Hd Hm];
    unfold log_of in *; cbn [snd] in *.
  - by apply elem_of_nil in Hin.
  - apply elem_of_cons in Hin as [? | Hin]; [done|].
    by apply elem_of_nil in Hin.
  - apply Htail in Hin. apply elem_of_cons in Hin as [? | Hin]; [done|].
    by apply elem_of_nil in Hin.
  - apply Htail in Hin. apply elem_of_cons in Hin as [E | Hin].
    2:{ apply elem_of_cons in Hin as [? | Hin]; [done|].
        by apply elem_of_nil in Hin. }
    injection E as -> -> ->. split_and!; try done.
    + by exists c.
    + rewrite List.filter_app, no_link_in_setup. simpl.
      by rewrite List.filter_app, no_link_in_compiles.
  - apply Htail in Hin. apply elem_of_cons in Hin as [E | Hin].
    2:{ apply elem_of_cons in Hin as [? | Hin]; [done|].
        by apply elem_of_nil in Hin. }
    injection E as -> -> ->. split_and!; try done.
    + by exists c.
    + rewrite List.filter_app, no_link_in_setup. simpl.
      by rewrite List.filter_app, no_link_in_compiles.
Qed.


End Claims.

(** * The claims on a concrete tree *)

Section Witnesses.

Local Existing Instance posix.

Ltac by_evaluation := apply (bool_decide_unpack _); vm_compute; exact I.

(** Runs of [build_library] on the demonstration tree. *)

Example run_two_modules :
  build_library Demo.host "languages.so" ["vendor/a"; "vendor/c"] Demo.tree
  = (Return true, <["languages.so" := 50]> Demo.tree,
     [EvNewCompiler; EvSetExecutables "c++"; EvMkTemp "/tmp/tmpq2x";
      EvCompile "vendor/a/src/parser.c" "/tmp/tmpq2x" ["vendor/a/src"]
        (Some ["-fPIC"; "-std=c11"]);
      EvCompile "vendor/a/src/scanner.cc" "/tmp/tmpq2x" ["vendor/a/src"]
        (Some ["-fPIC"; "-std=c++11"]);
      EvCompile "vendor/c/src/parser.c" "/tmp/tmpq2x" ["vendor/c/src"]
        (Some ["-fPIC"; "-std=c11"]);
      EvLink ["/tmp/tmpq2x/vendor/a/src/parser.c.o";
              "/tmp/tmpq2x/vendor/a/src/scanner.cc.o";
              "/tmp/tmpq2x/vendor/c/src/parser.c.o"] "languages.so" "c++";
      EvRmTemp "/tmp/tmpq2x"]).
Proof. vm_compute. reflexivity. Qed.

Example run_c_only :
  log_of (build_library Demo.host "languages.so" ["vendor/b"] Demo.tree)
  = [EvNewCompiler; EvSetExecutables "c++"; EvMkTemp "/tmp/tmpq2x";
     EvCompile "vendor/b/src/parser.c" "/tmp/tmpq2x" ["vendor/b/src"]
       (Some ["-fPIC"; "-std=c11"]);
     EvCompile "vendor/b/src/scanner.c" "/tmp/tmpq2x" ["vendor/b/src"]
       (Some ["-fPIC"; "-std=c11"]);
     EvLink ["/tmp/tmpq2x/vendor/b/src/parser.c.o";
             "/tmp/tmpq2x/vendor/b/src/scanner.c.o"] "languages.so" "c";
     EvRmTemp "/tmp/tmpq2x"].
Proof. vm_compute. reflexivity. Qed.

Example run_on_windows :
  log_of (build_library Demo.windows_host "languages.dll" ["vendor/a"]
            Demo.tree)
  = [EvNewCompiler; EvMkTemp "/tmp/tmpq2x";
     EvCompile "vendor/a/src/parser.c" "/tmp/tmpq2x" ["vendor/a/src"] None;
     EvCompile "vendor/a/src/scanner.cc" "/tmp/tmpq2x" ["vendor/a/src"] None;
     EvLink ["/tmp/tmpq2x/vendor/a/src/parser.c.o";
             "/tmp/tmpq2x/vendor/a/src/scanner.cc.o"] "languages.dll" "c++";
     EvRmTemp "/tmp/tmpq2x"].
Proof. vm_compute. reflexivity. Qed.

Example run_fresh_artifact :
  build_library Demo.host "languages.so" ["vendor/a"; "vendor/b"] Demo.built
  = (Return false, Demo.built, []).
Proof. vm_compute. reflexivity. Qed.

Lemma missing_parser_is_fatal_witness :
  "vendor/none" ∈ ["vendor/c"; "vendor/none"] ∧
  Demo.tree !! join (src_dir "vendor/none") "parser.c" = None ∧
  ∃ p, p ∈ inputs Demo.host Demo.tree ["vendor/c"; "vendor/none"] ∧
    Demo.tree !! p = None ∧
    build_library Demo.host "languages.so" ["vendor/c"; "vendor/none"]
      Demo.tree
    = (Raise (FileNotFoundError p), Demo.tree, []).
Proof.
  assert ("vendor/none" ∈ ["vendor/c"; "vendor/none"]) as H1
    by by_evaluation.
  assert (Demo.tree !! join (src_dir "vendor/none") "parser.c" = None) as H2
    by (vm_compute; reflexivity).
  split_and!; [done..|].
  exact (missing_parser_is_fatal Demo.host "languages.so" _ _ _ H1 H2).
Defined.

Lemma rebuild_iff_strictly_newer_witness :
  ["vendor/a"; "vendor/b"] ≠ [] ∧
  Forall (λ p, is_Some (Demo.built !! p))
    (inputs Demo.host Demo.built ["vendor/a"; "vendor/b"]) ∧
  30 ∈ mtimes Demo.built (inputs Demo.host Demo.built ["vendor/a"; "vendor/b"]) ∧
  Forall (λ t, t ≤ 30)
    (mtimes Demo.built (inputs Demo.host Demo.built ["vendor/a"; "vendor/b"])) ∧
  output_mtime Demo.built "languages.so" = 30 ∧
  build_library Demo.host "languages.so" ["vendor/a"; "vendor/b"] Demo.built
  = (Return false, Demo.built, []).
Proof.
  assert (["vendor/a"; "vendor/b"] ≠ @nil string) as H1 by done.
  assert (Forall (λ p, is_Some (Demo.built !! p))
    (inputs Demo.host Demo.built ["vendor/a"; "vendor/b"])) as H2
    by by_evaluation.
  assert (30 ∈ mtimes Demo.built
    (inputs Demo.host Demo.built ["vendor/a"; "vendor/b"])) as H3
    by by_evaluation.
  assert (Forall (λ t, t ≤ 30) (mtimes Demo.built
    (inputs Demo.host Demo.built ["vendor/a"; "vendor/b"]))) as H4
    by by_evaluation.
  assert (output_mtime Demo.built "languages.so" = 30) as H5
    by (vm_compute; reflexivity).
  split_and!; [done..|].
  destruct (rebuild_iff_strictly_newer Demo.host "languages.so"
              ["vendor/a"; "vendor/b"] Demo.built 30 H1 H2 H3 H4)
    as (_ & _ & Heq).
  apply Heq. by rewrite H5.
Defined.

Lemma absent_artifact_reads_as_epoch_witness :
  Demo.epoch_tree !! "languages.so" = None ∧
  ["vendor/c"] ≠ [] ∧
  Forall (λ p, is_Some (Demo.epoch_tree !! p))
    (inputs Demo.host Demo.epoch_tree ["vendor/c"]) ∧
  read_output_mtime "languages.so" Demo.epoch_tree
  = (Return 0, Demo.epoch_tree, []) ∧
  build_library Demo.host "languages.so" ["vendor/c"] Demo.epoch_tree
  = (Return false, Demo.epoch_tree, []).
Proof.
  assert (Demo.epoch_tree !! "languages.so" = None) as H1
    by (vm_compute; reflexivity).
  assert (["vendor/c"] ≠ @nil string) as H2 by done.
  assert (Forall (λ p, is_Some (Demo.epoch_tree !! p))
    (inputs Demo.host Demo.epoch_tree ["vendor/c"])) as H3 by by_evaluation.
  destruct (absent_artifact_reads_as_epoch Demo.host "languages.so"
              ["vendor/c"] Demo.epoch_tree H1 H2 H3) as (Hread & _ & Hzero).
  split_and!; [done..|]. apply Hzero.
  apply Forall_forall. by_evaluation.
Defined.

Lemma discovery_follows_convention_witness :
  PathLaws posix ∧
  for_each discover_step ["vendor/a"; "vendor/b"; "vendor/c"] (false, [])
    Demo.tree
  = (Return (true, ["vendor/a/src/parser.c"; "vendor/a/src/scanner.cc";
                    "vendor/b/src/parser.c"; "vendor/b/src/scanner.c";
                    "vendor/c/src/parser.c"]), Demo.tree, []) ∧
  all_units Demo.tree ["vendor/a"; "vendor/b"; "vendor/c"]
  = [("vendor/a/src/parser.c", C); ("vendor/a/src/scanner.cc", Cpp);
     ("vendor/b/src/parser.c", C); ("vendor/b/src/scanner.c", C);
     ("vendor/c/src/parser.c", C)].
Proof.
  split; [exact posix_laws|].
  destruct (discovery_follows_convention posix_laws Demo.tree
              ["vendor/a"; "vendor/b"; "vendor/c"]) as (-> & -> & _).
  split; vm_compute; reflexivity.
Defined.

Lemma cpp_scanner_shadows_c_scanner_witness :
  PathLaws posix ∧
  is_Some (Demo.tree !! join (join "vendor/a" "src") "scanner.cc") ∧
  is_Some (Demo.tree !! join (join "vendor/a" "src") "scanner.c") ∧
  discover_step (false, []) "vendor/a" Demo.tree
  = (Return (true, ["vendor/a/src/parser.c"; "vendor/a/src/scanner.cc"]),
     Demo.tree, []).
Proof.
  assert (is_Some (Demo.tree !! join (join "vendor/a" "src") "scanner.cc"))
    as H1 by by_evaluation.
  assert (is_Some (Demo.tree !! join (join "vendor/a" "src") "scanner.c"))
    as H2 by by_evaluation.
  split_and!; [exact posix_laws | done..|].
  destruct (cpp_scanner_shadows_c_scanner posix_laws Demo.tree "vendor/a"
              false [] H1 H2) as (-> & _).
  vm_compute. reflexivity.
Defined.

Lemma compile_flags_and_include_dir_witness :
  EvCompile "vendor/a/src/scanner.cc" "/tmp/tmpq2x" ["vendor/a/src"]
    (Some ["-fPIC"; "-std=c++11"])
    ∈ log_of (build_library Demo.host "languages.so" ["vendor/a"; "vendor/c"]
                Demo.tree) ∧
  ["vendor/a/src"] = [dirname "vendor/a/src/scanner.cc"] ∧
  "/tmp/tmpq2x" = tempdir Demo.host.
Proof.
  assert (EvCompile "vendor/a/src/scanner.cc" "/tmp/tmpq2x" ["vendor/a/src"]
            (Some ["-fPIC"; "-std=c++11"])
          ∈ log_of (build_library Demo.host "languages.so"
                      ["vendor/a"; "vendor/c"] Demo.tree)) as H1
    by by_evaluation.
  destruct (compile_flags_and_include_dir Demo.host "languages.so"
              ["vendor/a"; "vendor/c"] Demo.tree _ _ _ _ H1)
    as (Hinc & _ & _ & _ & _ & Hdir).
  done.
Defined.

Lemma compile_failure_aborts_pass_witness :
  EvCompile "vendor/bad/src/parser.c" "/tmp/tmpq2x" ["vendor/bad/src"]
    (Some ["-fPIC"; "-std=c11"])
    ∈ log_of (build_library Demo.host "languages.so"
                ["vendor/c"; "vendor/bad"; "vendor/a"] Demo.tree) ∧
  cc_compile Demo.host "vendor/bad/src/parser.c" "/tmp/tmpq2x"
    ["vendor/bad/src"] (Some ["-fPIC"; "-std=c11"]) = None ∧
  ∃ c pre post,
    (all_units Demo.tree ["vendor/c"; "vendor/bad"; "vendor/a"]).*1
    = pre ++ "vendor/bad/src/parser.c" :: post ∧
    build_library Demo.host "languages.so"
      ["vendor/c"; "vendor/bad"; "vendor/a"] Demo.tree
    = (Raise (CompileError "vendor/bad/src/parser.c"), Demo.tree,
       compiler_setup c ++ EvMkTemp "/tmp/tmpq2x" ::
       (compile_event Demo.host "/tmp/tmpq2x"
          <$> pre ++ ["vendor/bad/src/parser.c"]) ++
       [EvRmTemp "/tmp/tmpq2x"]).
Proof.
  assert (EvCompile "vendor/bad/src/parser.c" "/tmp/tmpq2x"
            ["vendor/bad/src"] (Some ["-fPIC"; "-std=c11"])
          ∈ log_of (build_library Demo.host "languages.so"
                      ["vendor/c"; "vendor/bad"; "vendor/a"] Demo.tree)) as H1
    by by_evaluation.
  assert (cc_compile Demo.host "vendor/bad/src/parser.c" "/tmp/tmpq2x"
            ["vendor/bad/src"] (Some ["-fPIC"; "-std=c11"]) = None) as H2
    by (vm_compute; reflexivity).
  split_and!; [done..|].
  destruct (compile_failure_aborts_pass Demo.host "languages.so"
              ["vendor/c"; "vendor/bad"; "vendor/a"] Demo.tree _ _ _ _ H1 H2)
    as (c & pre & post & Hsplit & _ & Hrun & _).
  by exists c, pre, post.
Defined.

Lemma link_once_with_inferred_target_witness :
  EvLink ["/tmp/tmpq2x/vendor/b/src/parser.c.o";
          "/tmp/tmpq2x/vendor/b/src/scanner.c.o";
          "/tmp/tmpq2x/vendor/c/src/parser.c.o"] "languages.so" "c"
    ∈ log_of (build_library Demo.host "languages.so" ["vendor/b"; "vendor/c"]
                Demo.tree) ∧
  List.filter is_link
    (log_of (build_library Demo.host "languages.so" ["vendor/b"; "vendor/c"]
               Demo.tree))
  = [EvLink ["/tmp/tmpq2x/vendor/b/src/parser.c.o";
             "/tmp/tmpq2x/vendor/b/src/scanner.c.o";
             "/tmp/tmpq2x/vendor/c/src/parser.c.o"] "languages.so" "c"].
Proof.
  assert (EvLink ["/tmp/tmpq2x/vendor/b/src/parser.c.o";
                  "/tmp/tmpq2x/vendor/b/src/scanner.c.o";
                  "/tmp/tmpq2x/vendor/c/src/parser.c.o"] "languages.so" "c"
          ∈ log_of (build_library Demo.host "languages.so"
                      ["vendor/b"; "vendor/c"] Demo.tree)) as H1
    by by_evaluation.
  split; [done|].
  by destruct (link_once_with_inferred_target Demo.host "languages.so"
                 ["vendor/b"; "vendor/c"] Demo.tree _ _ _ H1) as (_ & ? & _).
Defined.



End Witnesses.

(** * Further properties of [build_library] *)

Section MoreRuns.

Context {P : PathModule} (h : Host).

(** Discovery looks at the two scanner files of each module and at nothing
    else. *)
Lemma discovery_ext (fs fs' : FS) (roots : list string) :
  (∀ root, root ∈ roots →
     has_cpp_scanner fs' root = has_cpp_scanner fs root ∧
     has_c_scanner fs' root = has_c_scanner fs root) →
  all_units fs' roots = all_units fs roots ∧
  is_cpp_target fs' roots = is_cpp_target fs roots.
Proof.
  unfold all_units, is_cpp_target.
  induction roots as [|root roots IH]; intros Hag; [done|].
  destruct (Hag root) as [Hcc Hc]; [by left|].
  destruct IH as [IH1 IH2].
  { intros r Hr. apply Hag. by right. }
  change (flat_map (module_units fs') (root :: roots))
    with (module_units fs' root ++ flat_map (module_units fs') roots).
  change (flat_map (module_units fs) (root :: roots))
    with (module_units fs root ++ flat_map (module_units fs) roots).
  change (existsb (has_cpp_scanner fs') (root :: roots))
    with (has_cpp_scanner fs' root || existsb (has_cpp_scanner fs') roots).
  change (existsb (has_cpp_scanner fs) (root :: roots))
    with (has_cpp_scanner fs root || existsb (has_cpp_scanner fs) roots).
  rewrite IH1, IH2, Hcc. split; [|done].
  f_equal. unfold module_units. by rewrite Hcc, Hc.
Qed.

Lemma same_existence_same_discovery (fs fs' : FS) (roots : list string) :
  (∀ q, is_Some (fs' !! q) ↔ is_Some (fs !! q)) →
  all_units fs' roots = all_units fs roots ∧
  is_cpp_target fs' roots = is_cpp_target fs roots.
Proof.
  intros Hex. apply discovery_ext. intros root _.
  unfold has_cpp_scanner, has_c_scanner.
  split; apply bool_decide_ext, Hex.
Qed.

Lemma reads_ext (fs fs' : FS) (paths : list string) :
  (∀ q, q ∈ paths → fs' !! q = fs !! q) →
  missing fs' paths = missing fs paths ∧ mtimes fs' paths = mtimes fs paths.
Proof.
  unfold missing, mtimes. induction paths as [|q paths IH]; intros Hag; [done|].
  destruct IH as [IH1 IH2]; [intros ??; apply Hag; by right|].
  simpl. rewrite (Hag q) by (by left). rewrite IH1.
  split; [done|]. destruct (fs !! q); simpl; [f_equal|]; exact IH2.
Qed.

Lemma missing_first fs pre p post :
  Forall (λ q, is_Some (fs !! q)) pre → fs !! p = None →
  missing fs (pre ++ p :: post) = Some p.
Proof.
  unfold missing. induction 1 as [|q pre [t Ht] _ IH]; intros Hp; simpl.
  - by rewrite bool_decide_eq_true_2.
  - rewrite bool_decide_eq_false_2 by (by rewrite Ht). by apply IH.
Qed.

Lemma pass_run_raises output_path cpp srcs fs r e :
  pass_run h output_path cpp srcs fs r → result_of r = Raise e →
  (∃ msg, e = RuntimeError msg) ∨ e = DistutilsPlatformError ∨
  (∃ s, e = CompileError s) ∨ e = LinkError.
Proof.
  destruct 1; unfold result_of; simpl; intros E; try done;
    injection E as <-; eauto.
Qed.

(** X1: touching an input after the artifact was built forces a rebuild. *)
Theorem touching_an_input_forces_rebuild (output_path : string)
    (repo_paths : list string) (fs : FS) (p : string) (t : Z) :
  repo_paths ≠ [] →
  Forall (λ q, is_Some (fs !! q)) (inputs h fs repo_paths) →
  p ∈ inputs h fs repo_paths →
  p ≠ output_path →
  output_mtime fs output_path < t →
  build_library h output_path repo_paths (<[p := t]> fs)
  = build_pass h output_path (is_cpp_target fs repo_paths)
      (all_units fs repo_paths).*1 (<[p := t]> fs).
Proof.
  intros Hne Hex Hp Hpo Ht.
  assert (∀ q, is_Some (<[p := t]> fs !! q) ↔ is_Some (fs !! q)) as Hsame.
  { intros q. destruct (decide (p = q)) as [<- | Hq].
    - rewrite lookup_insert_eq. rewrite Forall_forall in Hex.
      split; [by eauto | by eexists].
    - by rewrite lookup_insert_ne. }
  destruct (same_existence_same_discovery fs (<[p := t]> fs) repo_paths Hsame)
    as [Hunits Hcpp].
  assert (inputs h (<[p := t]> fs) repo_paths = inputs h fs repo_paths)
    as Hinputs by (unfold inputs; by rewrite Hunits).
  rewrite build_library_unfold, bool_decide_eq_false_2 by done.
  rewrite Hinputs, Hunits, Hcpp.
  assert (missing (<[p := t]> fs) (inputs h fs repo_paths) = None) as ->.
  { apply missing_None. eapply Forall_impl; [exact Hex|].
    intros q Hq. by apply Hsame. }
  rewrite bool_decide_eq_false_2; [done|].
  rewrite fresh_iff. intros Hall.
  specialize (Hall p t Hp (lookup_insert_eq _ _ _)).
  unfold output_mtime in Hall, Ht. rewrite lookup_insert_ne in Hall by done.
  lia.
Qed.

(** X2: the rebuild decision reads the artifact, the build script and the
    three conventional files of each module, and nothing else. *)
Theorem decision_reads_only_the_inputs (output_path : string)
    (repo_paths : list string) (fs fs' : FS) :
  fs' !! output_path = fs !! output_path →
  fs' !! script_file h = fs !! script_file h →
  (∀ root name, root ∈ repo_paths →
     name ∈ ["parser.c"; "scanner.cc"; "scanner.c"] →
     fs' !! join (join root "src") name = fs !! join (join root "src") name) →
  all_units fs' repo_paths = all_units fs repo_paths ∧
  (build_library h output_path repo_paths fs' = (Return false, fs', []) ↔
   build_library h output_path repo_paths fs = (Return false, fs, [])) ∧
  (∀ q, build_library h output_path repo_paths fs'
        = (Raise (FileNotFoundError q), fs', []) ↔
        build_library h output_path repo_paths fs
        = (Raise (FileNotFoundError q), fs, [])).
Proof.
  intros Hout Hscript Hfiles.
  assert (∀ root name, root ∈ repo_paths →
    name ∈ ["parser.c"; "scanner.cc"; "scanner.c"] →
    fs' !! join (src_dir root) name = fs !! join (src_dir root) name)
    as Hfiles' by exact Hfiles.
  destruct (discovery_ext fs fs' repo_paths) as [Hunits Hcpp].
  { intros root Hroot. unfold has_cpp_scanner, has_c_scanner.
    rewrite !Hfiles' by (done || set_solver). done. }
  assert (inputs h fs' repo_paths = inputs h fs repo_paths) as Hinputs
    by (unfold inputs; by rewrite Hunits).
  assert (∀ q, q ∈ inputs h fs repo_paths → fs' !! q = fs !! q) as Hsame.
  { intros q Hq. unfold inputs in Hq.
    apply elem_of_cons in Hq as [-> | Hq]; [done|].
    apply list_elem_of_fmap in Hq as ([q' d] & -> & Hq).
    apply list_elem_of_In, in_flat_map in Hq as (root & Hroot & Hq).
    apply list_elem_of_In in Hroot. unfold module_units in Hq. simpl.
    destruct Hq as [E | Hq].
    { injection E as <- <-. apply Hfiles'; [done | set_solver]. }
    destruct (has_cpp_scanner fs root).
    { destruct Hq as [E | []]. injection E as <- <-.
      apply Hfiles'; [done | set_solver]. }
    destruct (has_c_scanner fs root); [|done].
    destruct Hq as [E | []]. injection E as <- <-.
    apply Hfiles'; [done | set_solver]. }
  destruct (reads_ext fs fs' _ Hsame) as [Hmiss Hmt].
  split; [done|].
  rewrite !build_library_unfold, Hinputs, Hunits, Hcpp, Hmiss, Hmt.
  unfold output_mtime. rewrite Hout.
  case_bool_decide; [done|].
  destruct (missing fs (inputs h fs repo_paths)) as [q'|];
    [split; [done|]; intros q; split; intros E; injection E as <-; done|].
  case_bool_decide.
  { split; [done|]. intros q. split; intros E; done. }
  split.
  - split; intros E; by apply build_pass_not_fresh in E.
  - intros q.
    pose proof (build_pass_cases h output_path (is_cpp_target fs repo_paths)
                  (all_units fs repo_paths).*1 fs') as Hp'.
    pose proof (build_pass_cases h output_path (is_cpp_target fs repo_paths)
                  (all_units fs repo_paths).*1 fs) as Hp.
    split; intros E; exfalso.
    + rewrite E in Hp'.
      destruct (pass_run_raises _ _ _ _ _ _ Hp' eq_refl)
        as [[? ?] | [? | [[? ?] | ?]]]; done.
    + rewrite E in Hp.
      destruct (pass_run_raises _ _ _ _ _ _ Hp eq_refl)
        as [[? ?] | [? | [[? ?] | ?]]]; done.
Qed.

(** X3: without a usable toolchain nothing is compiled. *)
Theorem toolchain_unavailable_compiles_nothing (output_path : string)
    (repo_paths : list string) (fs : FS) :
  (∀ c, distutils h ≠ Compiler c) →
  result_of (build_library h output_path repo_paths fs) ≠ Return true ∧
  (∀ ev, ev ∈ log_of (build_library h output_path repo_paths fs) →
     ev = EvNewCompiler) ∧
  (distutils h = ImportFails →
     log_of (build_library h output_path repo_paths fs) = []) ∧
  (∀ msg, result_of (build_library h output_path repo_paths fs)
          = Raise (RuntimeError msg) →
     distutils h = ImportFails ∧
     msg = "Failed to import distutils. You may need to install setuptools.").
Proof.
  intros Hno.
  pose proof (build_pass_unfold h output_path (is_cpp_target fs repo_paths)
                (all_units fs repo_paths).*1 fs) as Hpass.
  rewrite build_library_unfold.
  case_bool_decide; [by split_and!; try done; intros ? []%elem_of_nil|].
  destruct (missing fs _);
    [by split_and!; try done; intros ? []%elem_of_nil|].
  case_bool_decide; [by split_and!; try done; intros ? []%elem_of_nil|].
  rewrite Hpass. destruct (distutils h) as [| |c] eqn:Hd.
  - split_and!; try done.
    + by intros ? []%elem_of_nil.
    + intros msg E. by injection E as <-.
  - split_and!; try done.
    intros ev Hev. apply elem_of_cons in Hev as [-> | Hev]; [done|].
    by apply elem_of_nil in Hev.
  - by destruct (Hno c).
Qed.

(** X4: a failing link raises after every unit was compiled, and the
    temporary directory is still removed. *)
Theorem link_failure_is_fatal (output_path : string)
    (repo_paths : list string) (fs : FS) (objects : list string)
    (output target_lang : string) :
  EvLink objects output target_lang
    ∈ log_of (build_library h output_path repo_paths fs) →
  cc_link h objects output target_lang fs = None →
  ∃ c,
    build_library h output_path repo_paths fs
    = (Raise LinkError, fs,
       compiler_setup c ++ EvMkTemp (tempdir h) ::
       (compile_event h (tempdir h) <$> (all_units fs repo_paths).*1) ++
       [EvLink objects output target_lang; EvRmTemp (tempdir h)]) ∧
    mapM (compile_result h (tempdir h)) (all_units fs repo_paths).*1
    = Some objects.
Proof.
  intros Hin Hfail.
  assert (∀ c d evs tail,
    EvLink objects output target_lang
      ∈ compiler_setup c ++ EvMkTemp d :: (compile_event h d <$> evs) ++ tail →
    EvLink objects output target_lang ∈ tail) as Htail.
  { intros c d evs tail H.
    apply elem_of_app in H as [H | H]; [by apply link_in_setup in H|].
    apply elem_of_cons in H as [? | H]; [done|].
    apply elem_of_app in H as [H | H]; [|done].
    by apply list_elem_of_fmap in H as (? & ? & ?). }
  destruct (build_library_cases h output_path repo_paths fs)
    as [msg ?|p ? ?|? ? ?|r ? ? ? Hpass];
    try (by apply elem_of_nil in Hin).
  destruct Hpass as [| |c pre s post Hd Hsrcs Hpre Hs|c objs Hd Hm Hl
                    |c objs fs1 Hd Hm Hl];
    unfold log_of in *; cbn [snd] in *.
  - by apply elem_of_nil in Hin.
  - apply elem_of_cons in Hin as [? | Hin]; [done|].
    by apply elem_of_nil in Hin.
  - apply Htail in Hin. apply elem_of_cons in Hin as [? | Hin]; [done|].
    by apply elem_of_nil in Hin.
  - apply Htail in Hin. apply elem_of_cons in Hin as [E | Hin].
    2:{ apply elem_of_cons in Hin as [? | Hin]; [done|].
        by apply elem_of_nil in Hin. }
    injection E as -> -> ->. by exists c.
  - apply Htail in Hin. apply elem_of_cons in Hin as [E | Hin].
    2:{ apply elem_of_cons in Hin as [? | Hin]; [done|].
        by apply elem_of_nil in Hin. }
    injection E as -> -> ->. by rewrite Hfail in Hl.
Qed.

(** X5: compilations and the link happen inside the temporary directory's
    lifetime. *)
Theorem work_is_bracketed_by_the_temporary_directory (output_path : string)
    (repo_paths : list string) (fs : FS) :
  Forall (λ ev, ev = EvNewCompiler)
    (log_of (build_library h output_path repo_paths fs)) ∨
  ∃ c work,
    log_of (build_library h output_path repo_paths fs)
    = compiler_setup c ++
      EvMkTemp (tempdir h) :: work ++ [EvRmTemp (tempdir h)] ∧
    distutils h = Compiler c ∧
    Forall (λ ev, is_compile ev || is_link ev = true) work.
Proof.
  destruct (build_library_cases h output_path repo_paths fs)
    as [msg ?|p ? ?|? ? ?|r ? ? ? Hpass]; try (by left).
  assert (∀ srcs, Forall (λ ev, is_compile ev || is_link ev = true)
            (compile_event h (tempdir h) <$> srcs)) as Hwork.
  { intros srcs. apply Forall_fmap, Forall_true. done. }
  destruct Hpass as [| |c pre s post Hd Hsrcs Hpre Hs|c objs Hd Hm Hl
                    |c objs fs1 Hd Hm Hl];
    unfold log_of; cbn [snd].
  - by left.
  - left. by repeat constructor.
  - right. exists c, (compile_event h (tempdir h) <$> pre ++ [s]).
    by split_and!.
  - right. eexists c, (_ ++ [EvLink _ _ _]). split_and!.
    + by rewrite <- app_assoc.
    + done.
    + apply Forall_app. split; [apply Hwork | by repeat constructor].
  - right. eexists c, (_ ++ [EvLink _ _ _]). split_and!.
    + by rewrite <- app_assoc.
    + done.
    + apply Forall_app. split; [apply Hwork | by repeat constructor].
Qed.

(** X6: [set_executables] is called for a Unix compiler only, with [c++],
    right after the compiler is obtained. *)
Theorem set_executables_only_for_unix (output_path : string)
    (repo_paths : list string) (fs : FS) (cxx : string) :
  EvSetExecutables cxx ∈ log_of (build_library h output_path repo_paths fs) →
  cxx = "c++" ∧
  distutils h = Compiler UnixCCompiler ∧
  ∃ rest, log_of (build_library h output_path repo_paths fs)
          = EvNewCompiler :: EvSetExecutables "c++" ::
            EvMkTemp (tempdir h) :: rest.
Proof.
  intros Hin.
  assert (∀ c d (evs : list string) tail,
    EvSetExecutables cxx
      ∈ compiler_setup c ++ EvMkTemp d :: (compile_event h d <$> evs) ++ tail →
    EvSetExecutables cxx ∉ tail →
    cxx = "c++" ∧ c = UnixCCompiler) as Hsetup.
  { intros c d evs tail H Htail.
    apply elem_of_app in H as [H | H].
    - destruct c; simpl in H.
      + apply elem_of_cons in H as [? | H]; [done|].
        apply elem_of_cons in H as [E | H]; [by injection E as ->|].
        by apply elem_of_nil in H.
      + apply elem_of_cons in H as [? | H]; [done|].
        by apply elem_of_nil in H.
    - apply elem_of_cons in H as [? | H]; [done|].
      apply elem_of_app in H as [H | H]; [|done].
      by apply list_elem_of_fmap in H as (? & ? & ?). }
  destruct (build_library_cases h output_path repo_paths fs)
    as [msg ?|p ? ?|? ? ?|r ? ? ? Hpass];
    try (by apply elem_of_nil in Hin).
  destruct Hpass as [| |c pre s post Hd Hsrcs Hpre Hs|c objs Hd Hm Hl
                    |c objs fs1 Hd Hm Hl];
    unfold log_of in *; cbn [snd] in *.
  - by apply elem_of_nil in Hin.
  - apply elem_of_cons in Hin as [? | Hin]; [done|].
    by apply elem_of_nil in Hin.
  - apply Hsetup in Hin as [-> ->];
      [|rewrite !not_elem_of_cons; split_and!; try done; apply not_elem_of_nil].
    split_and!; [done..|]. by eexists.
  - apply Hsetup in Hin as [-> ->];
      [|rewrite !not_elem_of_cons; split_and!; try done; apply not_elem_of_nil].
    split_and!; [done..|]. by eexists.
  - apply Hsetup in Hin as [-> ->];
      [|rewrite !not_elem_of_cons; split_and!; try done; apply not_elem_of_nil].
    split_and!; [done..|]. by eexists.
Qed.

(** X7: a build that returns [True] compiled every discovered unit once, in
    order: between one and two compilations per module. *)
Theorem successful_build_compiles_every_unit (output_path : string)
    (repo_paths : list string) (fs : FS) :
  result_of (build_library h output_path repo_paths fs) = Return true →
  List.filter is_compile (log_of (build_library h output_path repo_paths fs))
  = compile_event h (tempdir h) <$> (all_units fs repo_paths).*1 ∧
  (length repo_paths
   ≤ length (List.filter is_compile
               (log_of (build_library h output_path repo_paths fs)))
   ≤ 2 * length repo_paths)%nat.
Proof.
  intros Htrue.
  assert (List.filter is_compile
            (log_of (build_library h output_path repo_paths fs))
          = compile_event h (tempdir h) <$> (all_units fs repo_paths).*1) as E.
  { destruct (build_library_cases h output_path repo_paths fs)
      as [msg ?|p ? ?|? ? ?|r ? ? ? Hpass]; try done.
    destruct Hpass as [| |c pre s post Hd Hsrcs Hpre Hs|c objs Hd Hm Hl
                      |c objs fs1 Hd Hm Hl]; try done.
    unfold log_of; cbn [snd].
    rewrite List.filter_app, no_compile_in_setup. simpl.
    rewrite List.filter_app, all_compile_in_compiles. simpl.
    by rewrite app_nil_r. }
  split; [done|]. rewrite E, !length_fmap. apply all_units_length.
Qed.

(** X8: the error names the first input that does not exist, the build
    script coming first and the units in discovery order. *)
Theorem first_missing_input_is_reported (output_path : string)
    (repo_paths : list string) (fs : FS) (pre post : list string)
    (p : string) :
  repo_paths ≠ [] →
  inputs h fs repo_paths = pre ++ p :: post →
  Forall (λ q, is_Some (fs !! q)) pre →
  fs !! p = None →
  build_library h output_path repo_paths fs
  = (Raise (FileNotFoundError p), fs, []).
Proof.
  intros Hne Hsplit Hpre Hp.
  rewrite build_library_unfold, bool_decide_eq_false_2 by done.
  by rewrite Hsplit, (missing_first fs pre p post Hpre Hp).
Qed.

(** X9: the scanner files are optional: when the build script and every
    [parser.c] exist, no call fails on a missing file. *)
Theorem scanners_are_optional (output_path : string)
    (repo_paths : list string) (fs : FS) :
  is_Some (fs !! script_file h) →
  (∀ root, root ∈ repo_paths →
     is_Some (fs !! join (join root "src") "parser.c")) →
  ∀ q, result_of (build_library h output_path repo_paths fs)
       ≠ Raise (FileNotFoundError q).
Proof.
  intros Hscript Hparsers q.
  assert (missing fs (inputs h fs repo_paths) = None) as Hmiss.
  { apply missing_None, Forall_forall. intros p Hp. unfold inputs in Hp.
    apply elem_of_cons in Hp as [-> | Hp]; [done|].
    apply list_elem_of_fmap in Hp as ([p' d] & -> & Hp).
    apply list_elem_of_In, in_flat_map in Hp as (root & Hroot & Hp).
    apply list_elem_of_In in Hroot. unfold module_units in Hp. simpl.
    destruct Hp as [E | Hp].
    { injection E as <- <-. by apply Hparsers. }
    unfold has_cpp_scanner, has_c_scanner in Hp.
    case_bool_decide as Hcc.
    { destruct Hp as [E | []]. by injection E as <- <-. }
    case_bool_decide as Hc; [|done].
    destruct Hp as [E | []]. by injection E as <- <-. }
  destruct (build_library_cases h output_path repo_paths fs)
    as [msg ?|p ? Hp|? ? ?|r ? ? ? Hpass]; try done.
  - by rewrite Hmiss in Hp.
  - intros E. destruct (pass_run_raises _ _ _ _ _ _ Hpass E)
      as [[? ?] | [? | [[? ?] | ?]]]; done.
Qed.

End MoreRuns.

(** X10: discovery treats the modules independently and keeps their order. *)
Theorem discovery_of_concatenation {P : PathModule} (fs : FS)
    (roots1 roots2 : list string) (cpp1 cpp2 : bool)
    (srcs1 srcs2 : list string) :
  for_each discover_step roots1 (false, []) fs
  = (Return (cpp1, srcs1), fs, []) →
  for_each discover_step roots2 (false, []) fs
  = (Return (cpp2, srcs2), fs, []) →
  for_each discover_step (roots1 ++ roots2) (false, []) fs
  = (Return (cpp1 || cpp2, srcs1 ++ srcs2), fs, []).
Proof.
  rewrite !discover_run. simpl. intros E1 E2.
  injection E1 as <- <-. injection E2 as <- <-.
  unfold is_cpp_target, all_units.
  by rewrite existsb_app, flat_map_app, fmap_app.
Qed.

(** X11: under [posixpath] every unit is compiled with the [src] directory
    of its own module as the only include directory. *)
Theorem posix_include_dir_is_module_src (h : Host) (output_path : string)
    (repo_paths : list string) (fs : FS) (source out_dir : string)
    (include_dirs : list string) (flags : option (list string)) :
  EvCompile source out_dir include_dirs flags
    ∈ log_of (@build_library posix h output_path repo_paths fs) →
  ∃ root name,
    root ∈ repo_paths ∧
    name ∈ ["parser.c"; "scanner.cc"; "scanner.c"] ∧
    source = posixpath.join (posixpath.join root "src") name ∧
    include_dirs = [posixpath.join root "src"].
Proof.
  intros Hin.
  destruct (@build_library_cases posix h output_path repo_paths fs)
    as [msg ?|p ? ?|? ? ?|r ? ? ? Hpass];
    try (by apply elem_of_nil in Hin).
  apply (pass_run_compile_events _ _ _ _ _ _ _ _ _ _ Hpass) in Hin
    as [Hsrc E].
  unfold compile_event in E. injection E as -> -> ->.
  apply list_elem_of_fmap in Hsrc as ([p d] & -> & Hp).
  apply list_elem_of_In, in_flat_map in Hp as (root & Hroot & Hp).
  apply list_elem_of_In in Hroot.
  assert (∃ name, name ∈ ["parser.c"; "scanner.cc"; "scanner.c"] ∧
            p = @join posix (@src_dir posix root) name) as (name & Hname & ->).
  { unfold module_units in Hp. destruct Hp as [E | Hp].
    { injection E as <- <-. exists "parser.c". split; [set_solver | done]. }
    destruct (has_cpp_scanner fs root).
    { destruct Hp as [E | []]. injection E as <- <-.
      exists "scanner.cc". split; [set_solver | done]. }
    destruct (has_c_scanner fs root); [|done].
    destruct Hp as [E | []]. injection E as <- <-.
    exists "scanner.c". split; [set_solver | done]. }
  exists root, name. split_and!; [done..|].
  f_equal. by apply posix_facts.include_dir_of_unit.
Qed.

(** * Further properties on the concrete tree *)

Section MoreWitnesses.

Local Existing Instance posix.

Ltac by_evaluation := apply (bool_decide_unpack _); vm_compute; exact I.

Lemma touching_an_input_forces_rebuild_witness :
  ["vendor/a"; "vendor/b"] ≠ [] ∧
  Forall (λ q, is_Some (Demo.built !! q))
    (inputs Demo.host Demo.built ["vendor/a"; "vendor/b"]) ∧
  "vendor/a/src/scanner.cc"
    ∈ inputs Demo.host Demo.built ["vendor/a"; "vendor/b"] ∧
  "vendor/a/src/scanner.cc" ≠ "languages.so" ∧
  output_mtime Demo.built "languages.so" < 31 ∧
  result_of (build_library Demo.host "languages.so" ["vendor/a"; "vendor/b"]
               (<["vendor/a/src/scanner.cc" := 31]> Demo.built))
  = Return true.
Proof.
  assert (["vendor/a"; "vendor/b"] ≠ @nil string) as H1 by done.
  assert (Forall (λ q, is_Some (Demo.built !! q))
    (inputs Demo.host Demo.built ["vendor/a"; "vendor/b"])) as H2
    by by_evaluation.
  assert ("vendor/a/src/scanner.cc"
    ∈ inputs Demo.host Demo.built ["vendor/a"; "vendor/b"]) as H3
    by by_evaluation.
  assert ("vendor/a/src/scanner.cc" ≠ "languages.so") as H4 by done.
  assert (output_mtime Demo.built "languages.so" < 31) as H5
    by (vm_compute; reflexivity).
  split_and!; [done..|].
  rewrite (touching_an_input_forces_rebuild Demo.host "languages.so"
             _ _ _ _ H1 H2 H3 H4 H5).
  vm_compute. reflexivity.
Defined.

Lemma decision_reads_only_the_inputs_witness :
  let fs' := <["README.md" := 99]> Demo.built in
  fs' !! "languages.so" = Demo.built !! "languages.so" ∧
  fs' !! script_file Demo.host = Demo.built !! script_file Demo.host ∧
  (∀ root name, root ∈ ["vendor/a"; "vendor/b"] →
     name ∈ ["parser.c"; "scanner.cc"; "scanner.c"] →
     fs' !! join (join root "src") name
     = Demo.built !! join (join root "src") name) ∧
  build_library Demo.host "languages.so" ["vendor/a"; "vendor/b"] fs'
  = (Return false, fs', []).
Proof.
  intros fs'.
  assert (fs' !! "languages.so" = Demo.built !! "languages.so") as H1
    by (vm_compute; reflexivity).
  assert (fs' !! script_file Demo.host = Demo.built !! script_file Demo.host)
    as H2 by (vm_compute; reflexivity).
  assert (∀ root name, root ∈ ["vendor/a"; "vendor/b"] →
     name ∈ ["parser.c"; "scanner.cc"; "scanner.c"] →
     fs' !! join (join root "src") name
     = Demo.built !! join (join root "src") name) as H3.
  { intros root name Hroot Hname.
    repeat (apply elem_of_cons in Hroot as [-> | Hroot];
            [repeat (apply elem_of_cons in Hname as [-> | Hname];
                     [vm_compute; reflexivity|]);
             by apply elem_of_nil in Hname|]).
    by apply elem_of_nil in Hroot. }
  split_and!; [done..|].
  apply (decision_reads_only_the_inputs Demo.host "languages.so"
           ["vendor/a"; "vendor/b"] Demo.built fs' H1 H2 H3).
  vm_compute. reflexivity.
Defined.

Lemma toolchain_unavailable_compiles_nothing_witness :
  (∀ c, distutils DemoHosts.no_distutils ≠ Compiler c) ∧
  log_of (build_library DemoHosts.no_distutils "languages.so" ["vendor/a"]
            Demo.tree) = [].
Proof.
  assert (∀ c, distutils DemoHosts.no_distutils ≠ Compiler c) as H1 by done.
  split; [done|].
  by apply (toolchain_unavailable_compiles_nothing DemoHosts.no_distutils
              "languages.so" ["vendor/a"] Demo.tree H1).
Defined.

Lemma link_failure_is_fatal_witness :
  EvLink ["/tmp/tmpq2x/vendor/c/src/parser.c.o"] "languages.so" "c"
    ∈ log_of (build_library DemoHosts.broken_linker "languages.so"
                ["vendor/c"] Demo.tree) ∧
  cc_link DemoHosts.broken_linker ["/tmp/tmpq2x/vendor/c/src/parser.c.o"]
    "languages.so" "c" Demo.tree = None ∧
  result_of (build_library DemoHosts.broken_linker "languages.so"
               ["vendor/c"] Demo.tree) = Raise LinkError.
Proof.
  assert (EvLink ["/tmp/tmpq2x/vendor/c/src/parser.c.o"] "languages.so" "c"
    ∈ log_of (build_library DemoHosts.broken_linker "languages.so"
                ["vendor/c"] Demo.tree)) as H1 by by_evaluation.
  assert (cc_link DemoHosts.broken_linker
            ["/tmp/tmpq2x/vendor/c/src/parser.c.o"]
            "languages.so" "c" Demo.tree = None) as H2 by done.
  split_and!; [done..|].
  destruct (link_failure_is_fatal DemoHosts.broken_linker "languages.so"
              ["vendor/c"] Demo.tree _ _ _ H1 H2) as (c & -> & _).
  done.
Defined.

Lemma set_executables_only_for_unix_witness :
  EvSetExecutables "c++"
    ∈ log_of (build_library Demo.host "languages.so" ["vendor/c"] Demo.tree) ∧
  distutils Demo.host = Compiler UnixCCompiler.
Proof.
  assert (EvSetExecutables "c++"
    ∈ log_of (build_library Demo.host "languages.so" ["vendor/c"] Demo.tree))
    as H1 by by_evaluation.
  split; [done|].
  by destruct (set_executables_only_for_unix Demo.host "languages.so"
                 ["vendor/c"] Demo.tree "c++" H1) as (_ & ? & _).
Defined.

Lemma successful_build_compiles_every_unit_witness :
  result_of (build_library Demo.host "languages.so" ["vendor/a"; "vendor/c"]
               Demo.tree) = Return true ∧
  length (List.filter is_compile
            (log_of (build_library Demo.host "languages.so"
                       ["vendor/a"; "vendor/c"] Demo.tree))) = 3%nat.
Proof.
  assert (result_of (build_library Demo.host "languages.so"
                       ["vendor/a"; "vendor/c"] Demo.tree) = Return true)
    as H1 by (vm_compute; reflexivity).
  split; [done|].
  destruct (successful_build_compiles_every_unit Demo.host "languages.so"
              ["vendor/a"; "vendor/c"] Demo.tree H1) as [-> _].
  vm_compute. reflexivity.
Defined.

Lemma first_missing_input_is_reported_witness :
  ["vendor/c"; "vendor/none"; "vendor/missing"] ≠ [] ∧
  inputs Demo.host Demo.tree ["vendor/c"; "vendor/none"; "vendor/missing"]
  = ["build.py"; "vendor/c/src/parser.c"] ++
    "vendor/none/src/parser.c" :: ["vendor/missing/src/parser.c"] ∧
  Forall (λ q, is_Some (Demo.tree !! q)) ["build.py"; "vendor/c/src/parser.c"] ∧
  Demo.tree !! "vendor/none/src/parser.c" = None ∧
  build_library Demo.host "languages.so"
    ["vendor/c"; "vendor/none"; "vendor/missing"] Demo.tree
  = (Raise (FileNotFoundError "vendor/none/src/parser.c"), Demo.tree, []).
Proof.
  assert (["vendor/c"; "vendor/none"; "vendor/missing"] ≠ @nil string) as H1
    by done.
  assert (inputs Demo.host Demo.tree
            ["vendor/c"; "vendor/none"; "vendor/missing"]
          = ["build.py"; "vendor/c/src/parser.c"] ++
            "vendor/none/src/parser.c" :: ["vendor/missing/src/parser.c"])
    as H2 by (vm_compute; reflexivity).
  assert (Forall (λ q, is_Some (Demo.tree !! q))
            ["build.py"; "vendor/c/src/parser.c"]) as H3 by by_evaluation.
  assert (Demo.tree !! "vendor/none/src/parser.c" = None) as H4
    by (vm_compute; reflexivity).
  split_and!; [done..|].
  exact (first_missing_input_is_reported Demo.host "languages.so" _ _ _ _ _
           H1 H2 H3 H4).
Defined.

Lemma scanners_are_optional_witness :
  is_Some (Demo.tree !! script_file Demo.host) ∧
  (∀ root, root ∈ ["vendor/c"] →
     is_Some (Demo.tree !! join (join root "src") "parser.c")) ∧
  result_of (build_library Demo.host "languages.so" ["vendor/c"] Demo.tree)
  ≠ Raise (FileNotFoundError "vendor/c/src/scanner.c").
Proof.
  assert (is_Some (Demo.tree !! script_file Demo.host)) as H1
    by by_evaluation.
  assert (∀ root, root ∈ ["vendor/c"] →
     is_Some (Demo.tree !! join (join root "src") "parser.c")) as H2.
  { intros root ->%list_elem_of_singleton. by_evaluation. }
  split_and!; [done..|].
  exact (scanners_are_optional Demo.host "languages.so" ["vendor/c"]
           Demo.tree H1 H2 _).
Defined.

Lemma discovery_of_concatenation_witness :
  for_each discover_step ["vendor/b"] (false, []) Demo.tree
  = (Return (false, ["vendor/b/src/parser.c"; "vendor/b/src/scanner.c"]),
     Demo.tree, []) ∧
  for_each discover_step ["vendor/a"] (false, []) Demo.tree
  = (Return (true, ["vendor/a/src/parser.c"; "vendor/a/src/scanner.cc"]),
     Demo.tree, []) ∧
  for_each discover_step (["vendor/b"] ++ ["vendor/a"]) (false, []) Demo.tree
  = (Return (false || true,
             ["vendor/b/src/parser.c"; "vendor/b/src/scanner.c"] ++
             ["vendor/a/src/parser.c"; "vendor/a/src/scanner.cc"]),
     Demo.tree, []).
Proof.
  assert (for_each discover_step ["vendor/b"] (false, []) Demo.tree
    = (Return (false, ["vendor/b/src/parser.c"; "vendor/b/src/scanner.c"]),
       Demo.tree, [])) as H1 by (vm_compute; reflexivity).
  assert (for_each discover_step ["vendor/a"] (false, []) Demo.tree
    = (Return (true, ["vendor/a/src/parser.c"; "vendor/a/src/scanner.cc"]),
       Demo.tree, [])) as H2 by (vm_compute; reflexivity).
  split_and!; [done..|].
  exact (discovery_of_concatenation Demo.tree _ _ _ _ _ _ H1 H2).
Defined.

Lemma posix_include_dir_is_module_src_witness :
  EvCompile "vendor/a/src/scanner.cc" "/tmp/tmpq2x" ["vendor/a/src"]
    (Some ["-fPIC"; "-std=c++11"])
    ∈ log_of (build_library Demo.host "languages.so" ["vendor/a"; "vendor/c"]
                Demo.tree) ∧
  ∃ root name,
    root ∈ ["vendor/a"; "vendor/c"] ∧
    name ∈ ["parser.c"; "scanner.cc"; "scanner.c"] ∧
    "vendor/a/src/scanner.cc"
    = posixpath.join (posixpath.join root "src") name ∧
    ["vendor/a/src"] = [posixpath.join root "src"].
Proof.
  assert (EvCompile "vendor/a/src/scanner.cc" "/tmp/tmpq2x" ["vendor/a/src"]
            (Some ["-fPIC"; "-std=c++11"])
          ∈ log_of (build_library Demo.host "languages.so"
                      ["vendor/a"; "vendor/c"] Demo.tree)) as H1
    by by_evaluation.
  split; [done|].
  exact (posix_include_dir_is_module_src Demo.host "languages.so" _ _ _ _ _ _
           H1).
Defined.

End MoreWitnesses.

(** * The module-level script *)

(** ** The lines of [repos.txt] *)

Module TextFacts.

Import Text.

Lemma split_blank (s : string) : blank s → split s = [].
Proof.
  unfold blank. induction s as [|c s IH]; [done|]. simpl.
  intros [Hc Hs]%Forall_cons. rewrite Hc. by apply IH.
Qed.

Lemma split_nil_blank (s : string) : split s = [] → blank s.
Proof.
  unfold blank. induction s as [|c s IH]; simpl; [by constructor|].
  destruct (isspace c) eqn:Hc.
  - intros Hs. constructor; [done | by apply IH].
  - destruct s as [|c' s']; [done|].
    destruct (isspace c'); [done|]. by destruct (split (String c' s')).
Qed.

(** The fields are not empty and hold no white space. *)
Lemma split_fields (s : string) :
  Forall (λ tok, tok ≠ "" ∧ solid tok) (split s).
Proof.
  unfold solid. induction s as [|c s IH]; simpl; [by constructor|].
  destruct (isspace c) eqn:Hc; [done|].
  assert (String c "" ≠ "" ∧
          Forall (λ c, isspace c = false) (chars (String c ""))) as Hone.
  { split; [done|]. by apply Forall_singleton. }
  destruct s as [|c' s']; [by apply Forall_singleton|].
  destruct (isspace c') eqn:Hc'; [by constructor|].
  destruct (split (String c' s')) as [|tok toks];
    [by apply Forall_singleton|].
  apply Forall_cons in IH as [[_ Htok] Htoks].
  constructor; [|done]. split; [done|]. by constructor.
Qed.

(** A field followed by white space, or by the end, is split off whole. *)
Lemma split_field_first (tok rest : string) :
  tok ≠ "" → solid tok →
  (rest = "" ∨ ∃ c r, rest = String c r ∧ isspace c = true) →
  split (tok +:+ rest) = tok :: split rest.
Proof.
  unfold solid. intros Hne Hsolid Hrest.
  induction tok as [|c tok IH]; [done|].
  apply Forall_cons in Hsolid as [Hc Hsolid].
  change (String c tok +:+ rest) with (String c (tok +:+ rest)).
  cbn [split]. rewrite Hc.
  destruct tok as [|c2 tok2].
  - change ("" +:+ rest) with rest.
    destruct Hrest as [-> | (c' & r & -> & Hc')]; [done|].
    by rewrite Hc'.
  - change (String c2 tok2 +:+ rest) with (String c2 (tok2 +:+ rest)) in *.
    apply Forall_cons in Hsolid as [Hc2 Hsolid]. rewrite Hc2.
    rewrite IH; [done | done |]. by constructor.
Qed.

(** [split_on] *)

Lemma split_on_nonempty (sep : ascii) (s : string) : split_on sep s ≠ [].
Proof.
  destruct s as [|c s]; simpl; [done|].
  case_bool_decide; [done|]. by destruct (split_on sep s).
Qed.

(** The last field is what follows the last separator. *)
Lemma split_on_last (sep : ascii) (s : string) :
  ∃ pre name,
    last (split_on sep s) = Some name ∧
    s = pre +:+ name ∧
    (sep ∉ chars name) ∧
    ((pre = "" ∧ split_on sep s = [name]) ∨
     (Str.endswith pre (String sep "") = true ∧
      (2 ≤ length (split_on sep s))%nat)).
Proof.
  induction s as [|c s (pre & name & Hlast & Hs & Hname & Hpre)].
  { exists "", "". split_and!; [done | done | apply not_elem_of_nil | by left]. }
  simpl. case_bool_decide as Hc.
  - subst c. exists (String sep pre), name. split_and!.
    + destruct (split_on sep s) eqn:E; [by apply split_on_nonempty in E|].
      done.
    + by rewrite Hs.
    + done.
    + right. split.
      * destruct Hpre as [[-> _] | [Hend _]]; [by apply endswith_refl|].
        apply endswith_true in Hend as [a ->].
        apply endswith_true. by exists (String sep a).
      * pose proof (split_on_nonempty sep s).
        destruct (split_on sep s); [done | simpl; lia].
  - destruct Hpre as [[-> Hone] | [Hend Hlen]].
    + rewrite Hone. exists "", (String c name). split_and!.
      * done.
      * by rewrite Hs.
      * simpl. rewrite not_elem_of_cons. by split; [congruence|].
      * by left.
    + destruct (split_on sep s) as [|tok [|tok2 toks]] eqn:E;
        [simpl in Hlen; lia | simpl in Hlen; lia |].
      exists (String c pre), name. split_and!.
      * done.
      * by rewrite Hs.
      * done.
      * right. split; [|simpl; lia].
        apply endswith_true in Hend as [a ->].
        apply endswith_true. by exists (String c a).
Qed.

(** [rstrip] *)

Lemma rstrip_snoc (c : ascii) (s : string) :
  rstrip c (s +:+ String c "") = rstrip c s.
Proof.
  induction s as [|x s IH].
  - simpl. by rewrite !bool_decide_eq_true_2.
  - change (String x s +:+ String c "") with (String x (s +:+ String c "")).
    simpl. by rewrite IH.
Qed.





(** [split_on] around one separator. *)




End TextFacts.

Module ParseFacts.

Import Text TextFacts Script.

Lemma last_component_ok (url : string) :
  ∃ pre name,
    last_component url = Ok name ∧
    rstrip "/" url = pre +:+ name ∧
    ("/"%char ∉ String.list_ascii_of_string name) ∧
    (pre = "" ∨ Str.endswith pre "/" = true).
Proof.
  unfold last_component.
  destruct (split_on_last "/" (rstrip "/" url))
    as (pre & name & -> & Hs & Hname & Hpre).
  exists pre, name. split_and!; [done..|].
  destruct Hpre as [[-> _] | [? _]]; [by left | by right].
Qed.





Section Reading.

Context {P : PathModule}.

Lemma parse_line_cases (repos : list repo) (line : string) :
  (∃ url commit name,
     split line = [url; commit] ∧ last_component url = Ok name ∧
     parse_line repos line = Ok (repos ++ [(url, commit, join "vendor" name)]))
  ∨ (length (split line) ≠ 2%nat ∧ parse_line repos line = Err ValueError).
Proof.
  unfold parse_line.
  destruct (split line) as [|url [|commit [|x l]]]; try (by right).
  left. destruct (last_component_ok url) as (pre & name & Hn & _).
  exists url, commit, name. by rewrite Hn.
Qed.

Lemma read_repos_cases (lines : list string) (repos : list repo) :
  (∃ new, read_repos lines repos = Ok (repos ++ new) ∧
     Forall2 (λ line r, ∃ name,
                split line = [r.1.1; r.1.2] ∧
                last_component r.1.1 = Ok name ∧
                r.2 = join "vendor" name) lines new)
  ∨ (read_repos lines repos = Err ValueError ∧
     Exists (λ line, length (split line) ≠ 2%nat) lines).
Proof.
  revert repos. induction lines as [|line lines IH]; intros repos.
  { left. exists []. by rewrite app_nil_r. }
  simpl.
  destruct (parse_line_cases repos line)
    as [(url & commit & name & Hs & Hn & ->) | [Hlen ->]].
  - destruct (IH (repos ++ [(url, commit, join "vendor" name)]))
      as [(new & -> & Hnew) | [-> Hex]].
    + left. exists ((url, commit, join "vendor" name) :: new).
      split; [by rewrite <- app_assoc|].
      constructor; [by exists name | done].
    + right. split; [done | by right].
  - right. split; [done | by left].
Qed.

(** X12: when reading succeeds there is one entry per line, in order, made
    of the two fields of the line; neither field is empty or holds white
    space. *)
Theorem read_repos_entries (lines : list string) (repos : list repo) :
  read_repos lines [] = Ok repos →
  Forall2 (λ line r,
             split line = [r.1.1; r.1.2] ∧
             r.1.1 ≠ "" ∧ solid r.1.1 ∧ r.1.2 ≠ "" ∧ solid r.1.2)
          lines repos.
Proof.
  intros Hok.
  destruct (read_repos_cases lines []) as [(new & E & Hnew) | [E _]];
    [|by rewrite E in Hok].
  rewrite E in Hok. injection Hok as <-. simpl.
  eapply Forall2_impl; [exact Hnew|].
  intros line r (name & Hs & _ & _).
  pose proof (split_fields line) as Hf. rewrite Hs in Hf.
  apply Forall_cons in Hf as [[? ?] Hf].
  apply Forall_cons in Hf as [[? ?] _]. done.
Qed.

(** X13: the reading fails exactly when some line does not hold two fields,
    a blank line for one: such a line is not skipped, the error is
    [ValueError], and no other error is raised (the index [-1] never
    fails). *)
Theorem malformed_line_is_an_error (lines : list string) (repos : list repo)
    (e : error) :
  read_repos lines repos = Err e
  ↔ e = ValueError ∧
    Exists (λ line, blank line ∨ length (split line) ≠ 2%nat) lines.
Proof.
  destruct (read_repos_cases lines repos) as [(new & E & Hnew) | [E Hex]].
  - rewrite E. split; [done|]. intros [_ Hex]. exfalso.
    apply Exists_exists in Hex as (line & Hin & Hbad).
    apply list_elem_of_lookup in Hin as [i Hi].
    destruct (Forall2_lookup_l _ _ _ _ _ Hnew Hi) as (r & _ & name & Hs & _).
    destruct Hbad as [Hb | Hlen].
    + apply split_blank in Hb. by rewrite Hb in Hs.
    + by rewrite Hs in Hlen.
  - rewrite E. split.
    + intros [= <-]. split; [done|].
      eapply Exists_impl; [exact Hex|]. intros line ?. by right.
    + by intros [-> _].
Qed.

Lemma split_format_line (url commit : string) :
  url ≠ "" → solid url → commit ≠ "" → solid commit →
  split (format_line (url, commit)) = [url; commit].
Proof.
  intros ? ? ? ?. unfold format_line. simpl fst. simpl snd.
  rewrite split_field_first; [|done|done|].
  2:{ right. by exists " "%char, (commit +:+ String "010" ""). }
  f_equal.
  change (" " +:+ commit +:+ String "010" "")
    with (String " " (commit +:+ String "010" "")).
  cbn [split]. change (isspace " ") with true. cbv iota.
  rewrite split_field_first; [done | done | done |].
  right. by exists "010"%char, "".
Qed.

Lemma read_formatted (entries : list (string * string)) (acc : list repo) :
  Forall (λ e, e.1 ≠ "" ∧ solid e.1 ∧ e.2 ≠ "" ∧ solid e.2) entries →
  ∃ new,
    read_repos (format_line <$> entries) acc = Ok (acc ++ new) ∧
    (λ r : repo, (r.1.1, r.1.2)) <$> new = entries.
Proof.
  intros Hwf. revert acc.
  induction Hwf as [|[url commit] entries (? & ? & ? & ?) _ IH]; intros acc.
  { exists []. by rewrite app_nil_r. }
  destruct (last_component_ok url) as (pre & name & Hn & _).
  destruct (IH (acc ++ [(url, commit, join "vendor" name)]))
    as (new & E & Hnew).
  exists ((url, commit, join "vendor" name) :: new). split.
  - rewrite fmap_cons. cbn [read_repos]. unfold parse_line.
    rewrite split_format_line by done. rewrite Hn, E.
    by rewrite <- app_assoc.
  - rewrite fmap_cons, Hnew. done.
Qed.

(** X14: reading the lines written for a list of (url, commit) pairs gives
    back these pairs, in order. *)
Theorem read_repos_round_trip (entries : list (string * string)) :
  Forall (λ e, e.1 ≠ "" ∧ solid e.1 ∧ e.2 ≠ "" ∧ solid e.2) entries →
  ∃ repos,
    read_repos (format_line <$> entries) [] = Ok repos ∧
    (λ r : repo, (r.1.1, r.1.2)) <$> repos = entries.
Proof. intros Hwf. by destruct (read_formatted entries [] Hwf) as (new & ? & ?); exists new. Qed.

(** X15: the name of a clone directory is what follows the last slash of
    the URL once its trailing slashes are dropped, so a trailing slash does
    not change it and the name holds no slash. *)
Theorem clone_directory_name (repos repos' : list repo) (line : string) :
  parse_line repos line = Ok repos' →
  ∃ url commit pre name,
    repos' = repos ++ [(url, commit, join "vendor" name)] ∧
    split line = [url; commit] ∧
    rstrip "/" url = pre +:+ name ∧
    ("/"%char ∉ String.list_ascii_of_string name) ∧
    (pre = "" ∨ Str.endswith pre "/" = true) ∧
    last_component (url +:+ "/") = Ok name.
Proof.
  intros Hok.
  destruct (parse_line_cases repos line)
    as [(url & commit & name & Hs & Hn & E) | [_ E]];
    [|by rewrite E in Hok].
  rewrite E in Hok. injection Hok as <-.
  destruct (last_component_ok url) as (pre & name' & Hn' & Hr & Hname & Hpre).
  rewrite Hn in Hn'. injection Hn' as <-.
  exists url, commit, pre, name. split_and!; try done.
  unfold last_component in *. by rewrite rstrip_snoc.
Qed.

End Reading.


End ParseFacts.

Module CloneFacts.
Import Script.

Section Cloning.

Context {D : Type} {disk : Disk D} (argv0 : string).

Lemma clone_turn (d : D) (r : repo) : turn_ok d r (clone argv0 r d).
Proof.
  destruct r as [[url commit] dir].
  unfold clone, mbind, IO_bind, print, os_path_exists, os_mkdir, check_call,
    mret, IO_ret.
  cbn [fst snd].
  destruct (exists_ d dir) eqn:Hex.
  { split; unfold out_of, disk_of, actions_of; cbn [fst snd app].
    - repeat (constructor; [by left|]). constructor.
    - intros _. split_and!; [done..|]. by repeat constructor.
    - done. }
  assert (∀ argv, argv ∈ git_commands url commit →
    is_print (Git argv dir) = true ∨ Git argv dir = Mkdir dir ∨
    ∃ argv', argv' ∈ git_commands url commit ∧ Git argv dir = Git argv' dir)
    as Hgit.
  { intros argv Hargv. right. right. by exists argv. }
  assert (["git"; "init"] ∈ git_commands url commit) as H1
    by (by left).
  assert (["git"; "remote"; "add"; "origin"; url] ∈ git_commands url commit)
    as H2 by (right; by left).
  assert (["git"; "fetch"; "--depth=1"; "origin"; commit]
          ∈ git_commands url commit) as H3
    by (do 2 right; by left).
  assert (["git"; "checkout"; commit] ∈ git_commands url commit) as H4
    by (do 3 right; by left).
  destruct (mkdir d dir) as [d1|];
    [destruct (call d1 ["git"; "init"] dir) as [[] d2];
     [destruct (call d2 ["git"; "remote"; "add"; "origin"; url] dir)
        as [[] d3];
      [destruct (call d3 ["git"; "fetch"; "--depth=1"; "origin"; commit] dir)
         as [[] d4];
       [destruct (call d4 ["git"; "checkout"; commit] dir) as [[] d5]|]|]|]|];
    (split; unfold out_of, disk_of, actions_of; cbn [fst snd app];
     [ repeat (constructor; [first [by left | by right; left | by apply Hgit]|]);
       constructor
     | by rewrite Hex
     | intros argv E; try done; by injection E as <- ]).
Qed.

Lemma clone_each_cons (r : repo) (repos : list repo) (d : D) :
  clone_each argv0 (r :: repos) d =
  match clone argv0 r d with
  | (Ok _, d1, t1) =>
      (out_of (clone_each argv0 repos d1), disk_of (clone_each argv0 repos d1),
       t1 ++ actions_of (clone_each argv0 repos d1))
  | (Err e, d1, t1) => (Err e, d1, t1)
  end.
Proof.
  cbn [clone_each]. unfold mbind at 1. unfold IO_bind.
  destruct (clone argv0 r d) as [[[[]|e] d1] t1]; [|done].
  by destruct (clone_each argv0 repos d1) as [[? ?] ?].
Qed.

(** Every action of the loop is a print or belongs to an entry of the list. *)
Lemma clone_each_actions (repos : list repo) (d : D) :
  Forall (λ a, is_print a = true ∨
               ∃ r, r ∈ repos ∧
                 (a = Mkdir r.2 ∨
                  ∃ argv, argv ∈ git_commands r.1.1 r.1.2 ∧ a = Git argv r.2))
         (actions_of (clone_each argv0 repos d)).
Proof.
  revert d. induction repos as [|r repos IH]; intros d; [by constructor|].
  rewrite clone_each_cons.
  pose proof (turn_actions _ _ _ (clone_turn d r)) as Hturn.
  assert (Forall (λ a, is_print a = true ∨
            ∃ r', r' ∈ r :: repos ∧
              (a = Mkdir r'.2 ∨
               ∃ argv, argv ∈ git_commands r'.1.1 r'.1.2 ∧ a = Git argv r'.2))
            (actions_of (clone argv0 r d))) as Hhead.
  { eapply Forall_impl; [exact Hturn|]. intros a [? | Ha]; [by left|].
    right. exists r. split; [by left | done]. }
  destruct (clone argv0 r d) as [[[[]|e] d1] t1]; [|done].
  unfold actions_of in *. cbn [snd] in *. apply Forall_app. split; [done|].
  eapply Forall_impl; [apply (IH d1)|]. intros a [? | (r' & ? & ?)]; [by left|].
  right. exists r'. split; [by right | done].
Qed.

Context {laws : DiskLaws D}.

Lemma clone_keeps (d : D) (r : repo) : turn_keeps d r (clone argv0 r d).
Proof.
  destruct r as [[url commit] dir].
  unfold clone, mbind, IO_bind, print, os_path_exists, os_mkdir, check_call,
    mret, IO_ret.
  cbn [fst snd].
  destruct (exists_ d dir) eqn:Hex.
  { split; unfold out_of, disk_of, actions_of; cbn [fst snd app]; [done..|].
    intros a Ha Hp. exfalso.
    repeat (apply elem_of_cons in Ha as [-> | Ha]; [done|]).
    by apply elem_of_nil in Ha. }
  destruct (mkdir d dir) as [d1|] eqn:E0.
  2:{ split; unfold out_of, disk_of, actions_of; cbn [fst snd app];
        [done | | done].
      intros [? | [argv Hin]]; [done|].
      repeat (apply elem_of_cons in Hin as [? | Hin]; [done|]).
      by apply elem_of_nil in Hin. }
  pose proof (mkdir_creates _ _ _ E0) as Hmade.
  pose proof (λ q, mkdir_keeps _ _ _ q E0) as Hk0.
  assert (∀ d' (log : list action) (out : result unit),
    (∀ q, exists_ d1 q = true → exists_ d' q = true) →
    turn_keeps d (url, commit, dir) (out, d', log)) as Hleaf.
  { intros d' log out Hk.
    split; unfold out_of, disk_of, actions_of; cbn [fst snd]; auto. }
  destruct (call d1 ["git"; "init"] dir) as [[] d2] eqn:E1;
    pose proof (λ q, call_keeps _ _ _ _ _ q E1) as Hk1;
    [|by apply Hleaf].
  destruct (call d2 ["git"; "remote"; "add"; "origin"; url] dir)
    as [[] d3] eqn:E2;
    pose proof (λ q, call_keeps _ _ _ _ _ q E2) as Hk2;
    [|apply Hleaf; by auto].
  destruct (call d3 ["git"; "fetch"; "--depth=1"; "origin"; commit] dir)
    as [[] d4] eqn:E3;
    pose proof (λ q, call_keeps _ _ _ _ _ q E3) as Hk3;
    [|apply Hleaf; by auto].
  destruct (call d4 ["git"; "checkout"; commit] dir) as [[] d5] eqn:E4;
    pose proof (λ q, call_keeps _ _ _ _ _ q E4) as Hk4;
    apply Hleaf; by auto 6.
Qed.

Lemma touches_not_print (dir : string) (a : action) :
  touches dir a → is_print a = false.
Proof. by intros [-> | [argv ->]]. Qed.

Lemma clone_touches (d : D) (r : repo) (dir : string) (a : action) :
  a ∈ actions_of (clone argv0 r d) → touches dir a →
  dir = r.2 ∧ exists_ d dir = false.
Proof.
  intros Ha Ht.
  pose proof (turn_actions _ _ _ (clone_turn d r)) as Hact.
  rewrite Forall_forall in Hact. specialize (Hact a Ha).
  pose proof (turn_fresh _ _ _ (clone_keeps d r) a Ha
                (touches_not_print dir a Ht)) as Hfresh.
  assert (dir = r.2) as ->; [|done].
  destruct Ht as [-> | [argv ->]].
  - destruct Hact as [? | [E | (? & _ & ?)]]; [done | congruence | done].
  - destruct Hact as [? | [? | (? & _ & E)]]; [done | done | congruence].
Qed.

Lemma clone_each_keeps (repos : list repo) (d : D) (q : string) :
  exists_ d q = true →
  exists_ (disk_of (clone_each argv0 repos d)) q = true.
Proof.
  revert d. induction repos as [|r repos IH]; intros d Hq; [done|].
  rewrite clone_each_cons.
  pose proof (turn_monotone _ _ _ (clone_keeps d r) q Hq) as Hturn.
  destruct (clone argv0 r d) as [[[[]|e] d1] t1]; [|done].
  by apply IH.
Qed.

(** The loop acts only on directories that did not exist when it started. *)
Lemma clone_each_touches (repos : list repo) (d : D) (dir : string)
    (a : action) :
  a ∈ actions_of (clone_each argv0 repos d) → touches dir a →
  exists_ d dir = false.
Proof.
  revert d. induction repos as [|r repos IH]; intros d Ha Ht.
  { by apply elem_of_nil in Ha. }
  rewrite clone_each_cons in Ha.
  pose proof (λ Hin, clone_touches d r dir a Hin Ht) as Hhead.
  pose proof (turn_monotone _ _ _ (clone_keeps d r) dir) as Hmono.
  destruct (clone argv0 r d) as [[[[]|e] d1] t1];
    unfold actions_of, disk_of in *; cbn [fst snd] in *.
  - apply elem_of_app in Ha as [Ha | Ha]; [by apply Hhead|].
    specialize (IH d1 Ha Ht).
    destruct (exists_ d dir) eqn:Hex; [|done].
    by rewrite Hmono in IH.
  - by apply Hhead.
Qed.

Lemma clone_each_ok (repos : list repo) (d : D) :
  out_of (clone_each argv0 repos d) = Ok tt →
  Forall (λ r : repo, exists_ (disk_of (clone_each argv0 repos d)) r.2 = true)
         repos.
Proof.
  revert d. induction repos as [|r repos IH]; intros d Hok; [by constructor|].
  rewrite clone_each_cons in *.
  pose proof (turn_made _ _ _ (clone_keeps d r)) as Hmade.
  destruct (clone argv0 r d) as [[[[]|e] d1] t1]; [|done].
  unfold out_of, disk_of in *; cbn [fst snd] in *.
  constructor; [|by apply IH].
  apply clone_each_keeps, Hmade. by left.
Qed.

Lemma clone_each_failure (repos : list repo) (d : D) (argv : list string) :
  out_of (clone_each argv0 repos d) = Err (CalledProcessError argv) →
  ∃ cwd, last (actions_of (clone_each argv0 repos d)) = Some (Git argv cwd) ∧
         exists_ (disk_of (clone_each argv0 repos d)) cwd = true.
Proof.
  revert d. induction repos as [|r repos IH]; intros d Herr; [done|].
  rewrite clone_each_cons in *.
  pose proof (turn_failure _ _ _ (clone_turn d r) argv) as Hlast.
  pose proof (turn_made _ _ _ (clone_keeps d r)) as Hmade.
  destruct (clone argv0 r d) as [[[[]|e] d1] t1];
    unfold out_of, disk_of, actions_of in *; cbn [fst snd] in *.
  - destruct (IH d1 Herr) as (cwd & Hl & Hex). exists cwd. split; [|done].
    by rewrite last_app, Hl.
  - exists r.2. specialize (Hlast Herr). split; [done|].
    apply Hmade. right. exists argv.
    apply last_Some in Hlast as [l' ->]. apply elem_of_app. right. by left.
Qed.

Lemma clone_each_skips (repos : list repo) (d : D) :
  Forall (λ r : repo, exists_ d r.2 = true) repos →
  out_of (clone_each argv0 repos d) = Ok tt ∧
  disk_of (clone_each argv0 repos d) = d ∧
  Forall (λ a, is_print a = true) (actions_of (clone_each argv0 repos d)).
Proof.
  induction 1 as [|r repos Hr _ (IH1 & IH2 & IH3)];
    [by split_and!; [| |constructor]|].
  rewrite clone_each_cons.
  destruct (turn_skip _ _ _ (clone_turn d r) Hr) as (H1 & H2 & H3).
  destruct (clone argv0 r d) as [[[[]|e] d1] t1]; [|done].
  unfold out_of, disk_of, actions_of in *; cbn [fst snd] in *. subst d1.
  split_and!; [done..|]. by apply Forall_app.
Qed.

Lemma clone_repos_unfold (repos : list repo) (d : D) :
  clone_repos argv0 repos d =
  if isdir d "vendor"
     && bool_decide (length (listdir d "vendor") = length repos)
  then (Ok tt, d,
        [Print (argv0 +:+ ": Language repositories have been cloned already.")])
  else
    match makedirs d "vendor" with
    | Some d' =>
        (out_of (clone_each argv0 repos d'),
         disk_of (clone_each argv0 repos d'),
         Makedirs "vendor" :: actions_of (clone_each argv0 repos d'))
    | None => (Err (OSError "vendor"), d, [Makedirs "vendor"])
    end.
Proof.
  unfold clone_repos. destruct (_ && _); [done|].
  unfold mbind, IO_bind, os_makedirs.
  destruct (makedirs d "vendor") as [d'|]; [|done].
  by destruct (clone_each argv0 repos d') as [[? ?] ?].
Qed.

(** X17: the cloning only prints, makes [vendor], makes clone directories
    of the list and runs the four git commands of an entry in its clone
    directory. *)
Theorem cloning_runs_only_the_listed_commands (repos : list repo) (d : D) :
  Forall (λ a, is_print a = true ∨ a = Makedirs "vendor" ∨
               ∃ r, r ∈ repos ∧
                 (a = Mkdir r.2 ∨
                  ∃ argv, argv ∈ git_commands r.1.1 r.1.2 ∧ a = Git argv r.2))
         (actions_of (clone_repos argv0 repos d)).
Proof.
  rewrite clone_repos_unfold. destruct (_ && _).
  { apply Forall_singleton. by left. }
  destruct (makedirs d "vendor") as [d'|].
  - unfold actions_of at 1. cbn [snd]. constructor; [right; by left|].
    eapply Forall_impl; [apply clone_each_actions|].
    intros a [? | ?]; [by left | right; by right].
  - apply Forall_singleton. right. by left.
Qed.

Lemma existing_directories_are_left_alone_aux (repos : list repo) (d : D)
    (dir : string) (a : action) :
  a ∈ actions_of (clone_repos argv0 repos d) →
  touches dir a →
  exists_ d dir = false.
Proof.
  intros Ha Ht. rewrite clone_repos_unfold in Ha.
  destruct (_ && _).
  { apply list_elem_of_singleton in Ha as ->. by destruct Ht as [? | [? ?]]. }
  destruct (makedirs d "vendor") as [d'|] eqn:Em;
    unfold actions_of in Ha at 1; cbn [snd] in Ha.
  - apply elem_of_cons in Ha as [-> | Ha]; [by destruct Ht as [? | [? ?]]|].
    pose proof (clone_each_touches repos d' dir a Ha Ht) as Hd'.
    destruct (exists_ d dir) eqn:Hex; [|done].
    by rewrite (makedirs_keeps _ _ _ _ Em Hex) in Hd'.
  - apply list_elem_of_singleton in Ha as ->. by destruct Ht as [? | [? ?]].
Qed.

(** X18: a directory that exists when the script starts is left alone: the
    script neither makes it nor runs a command in it. *)
Theorem existing_directories_are_left_alone (repos : list repo) (d : D)
    (dir : string) (a : action) :
  a ∈ actions_of (clone_repos argv0 repos d) →
  touches dir a →
  exists_ d dir = false.
Proof. apply existing_directories_are_left_alone_aux. Qed.

(** X19: when a git command fails, its directory stays behind, and no later
    run of the script makes it or runs a command in it again. *)
Theorem failed_clone_is_not_retried (repos : list repo) (d d1 : D)
    (argv : list string) (log : list action) :
  clone_repos argv0 repos d = (Err (CalledProcessError argv), d1, log) →
  ∃ cwd,
    last log = Some (Git argv cwd) ∧
    exists_ d1 cwd = true ∧
    ∀ repos' a, a ∈ actions_of (clone_repos argv0 repos' d1) →
                ¬ touches cwd a.
Proof.
  intros Hrun. rewrite clone_repos_unfold in Hrun.
  destruct (_ && _); [done|].
  destruct (makedirs d "vendor") as [d'|] eqn:Em; [|done].
  injection Hrun as Hout <- <-.
  destruct (clone_each_failure repos d' argv Hout) as (cwd & Hl & Hex).
  exists cwd. split_and!; [|done|].
  - change (Makedirs "vendor" :: actions_of (clone_each argv0 repos d'))
      with ([Makedirs "vendor"] ++ actions_of (clone_each argv0 repos d')).
    by rewrite last_app, Hl.
  - intros repos' a Ha Ht.
    pose proof (existing_directories_are_left_alone_aux repos' _ cwd a Ha Ht).
    congruence.
Qed.

(** X20: when the script goes through the list and ends without an error,
    every clone directory of the list exists. *)
Theorem finished_cloning_leaves_every_directory (repos : list repo)
    (d d1 : D) (log : list action) :
  clone_repos argv0 repos d = (Ok tt, d1, log) →
  Makedirs "vendor" ∈ log →
  Forall (λ r : repo, exists_ d1 r.2 = true) repos.
Proof.
  intros Hrun Hmk. rewrite clone_repos_unfold in Hrun.
  destruct (_ && _).
  { injection Hrun as <- <-.
    by apply list_elem_of_singleton in Hmk. }
  destruct (makedirs d "vendor") as [d'|]; [|done].
  injection Hrun as Hout <- <-. by apply clone_each_ok.
Qed.

(** X21: after a run that ended without an error, a second run on the same
    list makes no directory and runs no command. *)
Theorem second_run_clones_nothing (repos : list repo) (d d1 : D)
    (log : list action) :
  clone_repos argv0 repos d = (Ok tt, d1, log) →
  Forall (λ a, is_print a = true ∨ a = Makedirs "vendor")
         (actions_of (clone_repos argv0 repos d1)).
Proof.
  intros Hrun.
  assert (∀ d2, Forall (λ r : repo, exists_ d2 r.2 = true) repos →
    Forall (λ a, is_print a = true ∨ a = Makedirs "vendor")
           (actions_of (clone_repos argv0 repos d2))) as Hskip.
  { intros d2 Hall. rewrite clone_repos_unfold. destruct (_ && _).
    { apply Forall_singleton. by left. }
    destruct (makedirs d2 "vendor") as [d3|] eqn:Em;
      [|apply Forall_singleton; by right].
    unfold actions_of at 1. cbn [snd]. constructor; [by right|].
    destruct (clone_each_skips repos d3) as (_ & _ & Hp).
    { eapply Forall_impl; [exact Hall|]. intros r Hr.
      by apply (makedirs_keeps _ _ _ _ Em). }
    eapply Forall_impl; [exact Hp|]. by left. }
  rewrite clone_repos_unfold in Hrun.
  destruct (isdir d "vendor"
            && bool_decide (length (listdir d "vendor") = length repos))
    eqn:Hcount.
  - injection Hrun as <- <-. rewrite clone_repos_unfold, Hcount.
    apply Forall_singleton. by left.
  - destruct (makedirs d "vendor") as [d'|]; [|done].
    injection Hrun as Hout <- <-. by apply Hskip, clone_each_ok.
Qed.

End Cloning.

End CloneFacts.

(** * The script on a concrete disk *)

Module ScriptWitnesses.

Import Text TextFacts Script ParseFacts CloneFacts.

Local Existing Instance posix.

Ltac by_evaluation := apply (bool_decide_unpack _); vm_compute; exact I.

Lemma demo_exists (d : gset string) (q : string) :
  exists_ d q = true ↔ q ∈ d.
Proof. apply bool_decide_eq_true. Qed.

Global Instance demo_disk_laws : DiskLaws (gset string).
Proof.
  split.
  - intros d d' p q Hm. rewrite !demo_exists.
    cbn in Hm. injection Hm as <-. intros Hq. apply elem_of_union. by right.
  - intros d d' p q Hm. rewrite !demo_exists.
    cbn in Hm. case_bool_decide; [done|]. injection Hm as <-.
    intros Hq. apply elem_of_union. by right.
  - intros d d' p Hm. rewrite demo_exists.
    cbn in Hm. case_bool_decide; [done|]. injection Hm as <-.
    apply elem_of_union. left. by apply elem_of_singleton.
  - intros d d' argv cwd b q Hc. rewrite !demo_exists.
    cbn in Hc. injection Hc as _ <-. intros Hq.
    case_bool_decide; [|done]. apply elem_of_union. by right.
Qed.

Example listdir_gives_the_entries :
  listdir
    ({["vendor"; "vendor/tree-sitter-c"; "vendor/tree-sitter-c/.git";
       "vendor/tree-sitter-c/src"; "vendored"; "vendor/"]} : gset string)
    "vendor"
  = ["tree-sitter-c"].
Proof. vm_compute. reflexivity. Qed.

Example reading_the_demo_lines :
  read_repos (format_line <$> DemoDisk.entries) [] = Ok DemoDisk.repos.
Proof. vm_compute. reflexivity. Qed.

Example cloning_into_an_empty_disk :
  actions_of (clone_repos "build.py" DemoDisk.repos (∅ : gset string))
  = [Makedirs "vendor";
     Print "";
     Print "build.py: Cloning: https://github.com/tree-sitter/tree-sitter-c (commit 34f4c7e) --> vendor/tree-sitter-c";
     Print "";
     Mkdir "vendor/tree-sitter-c";
     Git ["git"; "init"] "vendor/tree-sitter-c";
     Git ["git"; "remote"; "add"; "origin";
          "https://github.com/tree-sitter/tree-sitter-c"]
         "vendor/tree-sitter-c";
     Git ["git"; "fetch"; "--depth=1"; "origin"; "34f4c7e"]
         "vendor/tree-sitter-c";
     Git ["git"; "checkout"; "34f4c7e"] "vendor/tree-sitter-c";
     Print "";
     Print "build.py: Cloning: https://github.com/tree-sitter/tree-sitter-go/ (commit 64457ea) --> vendor/tree-sitter-go";
     Print "";
     Mkdir "vendor/tree-sitter-go";
     Git ["git"; "init"] "vendor/tree-sitter-go";
     Git ["git"; "remote"; "add"; "origin";
          "https://github.com/tree-sitter/tree-sitter-go/"]
         "vendor/tree-sitter-go";
     Git ["git"; "fetch"; "--depth=1"; "origin"; "64457ea"]
         "vendor/tree-sitter-go";
     Git ["git"; "checkout"; "64457ea"] "vendor/tree-sitter-go"].
Proof. vm_compute. reflexivity. Qed.

Example second_run_on_the_demo_disk :
  actions_of
    (clone_repos "build.py" DemoDisk.repos
       (disk_of (clone_repos "build.py" DemoDisk.repos (∅ : gset string))))
  = [Print "build.py: Language repositories have been cloned already."].
Proof. vm_compute. reflexivity. Qed.

Lemma read_repos_entries_witness :
  read_repos (format_line <$> DemoDisk.entries) [] = Ok DemoDisk.repos ∧
  Forall2 (λ line (r : repo),
             split line = [r.1.1; r.1.2] ∧
             r.1.1 ≠ "" ∧ solid r.1.1 ∧ r.1.2 ≠ "" ∧ solid r.1.2)
          (format_line <$> DemoDisk.entries) DemoDisk.repos.
Proof.
  assert (read_repos (format_line <$> DemoDisk.entries) []
          = Ok DemoDisk.repos) as H1 by (vm_compute; reflexivity).
  split; [done|].
  exact (read_repos_entries _ _ H1).
Defined.

Lemma malformed_line_is_an_error_witness :
  Exists (λ line, blank line ∨ length (split line) ≠ 2%nat)
    [format_line ("https://github.com/tree-sitter/tree-sitter-c", "34f4c7e");
     "   "] ∧
  read_repos
    [format_line ("https://github.com/tree-sitter/tree-sitter-c", "34f4c7e");
     "   "] []
  = Err ValueError ∧
  (∀ e, read_repos ["https://github.com/tree-sitter/tree-sitter-c"] [] = Err e
        → e = ValueError).
Proof.
  assert (Exists (λ line, blank line ∨ length (split line) ≠ 2%nat)
    [format_line ("https://github.com/tree-sitter/tree-sitter-c", "34f4c7e");
     "   "]) as H1.
  { right. left. left. unfold blank. by_evaluation. }
  split_and!; [done| |].
  - exact (proj2 (malformed_line_is_an_error _ [] ValueError) (conj eq_refl H1)).
  - intros e He. exact (proj1 (proj1 (malformed_line_is_an_error _ [] e) He)).
Defined.

Lemma read_repos_round_trip_witness :
  Forall (λ e, e.1 ≠ "" ∧ solid e.1 ∧ e.2 ≠ "" ∧ solid e.2)
    DemoDisk.entries ∧
  ∃ repos,
    read_repos (format_line <$> DemoDisk.entries) [] = Ok repos ∧
    (λ r : repo, (r.1.1, r.1.2)) <$> repos = DemoDisk.entries.
Proof.
  assert (Forall (λ e, e.1 ≠ "" ∧ solid e.1 ∧ e.2 ≠ "" ∧ solid e.2)
    DemoDisk.entries) as H1.
  { unfold solid. by_evaluation. }
  split; [done|].
  exact (read_repos_round_trip DemoDisk.entries H1).
Defined.

Lemma clone_directory_name_witness :
  parse_line []
    "https://github.com/tree-sitter/tree-sitter-go/ 64457ea"
  = Ok [("https://github.com/tree-sitter/tree-sitter-go/", "64457ea",
         "vendor/tree-sitter-go")] ∧
  ∃ url commit pre name,
    [("https://github.com/tree-sitter/tree-sitter-go/", "64457ea",
      "vendor/tree-sitter-go")]
    = [] ++ [(url, commit, join "vendor" name)] ∧
    split "https://github.com/tree-sitter/tree-sitter-go/ 64457ea"
    = [url; commit] ∧
    rstrip "/" url = pre +:+ name ∧
    ("/"%char ∉ String.list_ascii_of_string name) ∧
    (pre = "" ∨ Str.endswith pre "/" = true) ∧
    last_component (url +:+ "/") = Ok name.
Proof.
  assert (parse_line []
    "https://github.com/tree-sitter/tree-sitter-go/ 64457ea"
    = Ok [("https://github.com/tree-sitter/tree-sitter-go/", "64457ea",
           "vendor/tree-sitter-go")]) as H1 by (vm_compute; reflexivity).
  split; [done|].
  exact (clone_directory_name _ _ _ H1).
Defined.


Lemma existing_directories_are_left_alone_witness :
  DiskLaws (gset string) ∧
  Git ["git"; "init"] "vendor/tree-sitter-go"
    ∈ actions_of (clone_repos "build.py" DemoDisk.repos
                    ({["vendor"; "vendor/tree-sitter-c"]} : gset string)) ∧
  touches "vendor/tree-sitter-go" (Git ["git"; "init"] "vendor/tree-sitter-go") ∧
  exists_ ({["vendor"; "vendor/tree-sitter-c"]} : gset string)
    "vendor/tree-sitter-go" = false.
Proof.
  assert (Git ["git"; "init"] "vendor/tree-sitter-go"
    ∈ actions_of (clone_repos "build.py" DemoDisk.repos
                    ({["vendor"; "vendor/tree-sitter-c"]} : gset string)))
    as H1.
  { apply list_elem_of_In. vm_compute. tauto. }
  assert (touches "vendor/tree-sitter-go"
            (Git ["git"; "init"] "vendor/tree-sitter-go")) as H2
    by (right; by eexists).
  split_and!; [apply demo_disk_laws | done | done |].
  exact (existing_directories_are_left_alone "build.py" _ _ _ _ H1 H2).
Defined.

Lemma failed_clone_is_not_retried_witness :
  let run := clone_repos "build.py" DemoDisk.bad_repos (∅ : gset string) in
  DiskLaws (gset string) ∧
  run = (Err (CalledProcessError
                ["git"; "fetch"; "--depth=1"; "origin"; "bad"]),
         disk_of run, actions_of run) ∧
  ∃ cwd,
    last (actions_of run)
    = Some (Git ["git"; "fetch"; "--depth=1"; "origin"; "bad"] cwd) ∧
    exists_ (disk_of run) cwd = true ∧
    ∀ repos' a, a ∈ actions_of (clone_repos "build.py" repos' (disk_of run)) →
                ¬ touches cwd a.
Proof.
  intros run.
  assert (run = (Err (CalledProcessError
                        ["git"; "fetch"; "--depth=1"; "origin"; "bad"]),
                 disk_of run, actions_of run)) as H1
    by (vm_compute; reflexivity).
  split_and!; [apply demo_disk_laws | done |].
  exact (failed_clone_is_not_retried "build.py" _ _ _ _ _ H1).
Defined.

Lemma finished_cloning_leaves_every_directory_witness :
  let run := clone_repos "build.py" DemoDisk.repos (∅ : gset string) in
  DiskLaws (gset string) ∧
  run = (Ok tt, disk_of run, actions_of run) ∧
  Makedirs "vendor" ∈ actions_of run ∧
  Forall (λ r : repo, exists_ (disk_of run) r.2 = true) DemoDisk.repos.
Proof.
  intros run.
  assert (run = (Ok tt, disk_of run, actions_of run)) as H1
    by (vm_compute; reflexivity).
  assert (Makedirs "vendor" ∈ actions_of run) as H2.
  { apply list_elem_of_In. vm_compute. tauto. }
  split_and!; [apply demo_disk_laws | done | done |].
  exact (finished_cloning_leaves_every_directory "build.py" _ _ _ _ H1 H2).
Defined.

Lemma second_run_clones_nothing_witness :
  let run := clone_repos "build.py" DemoDisk.repos (∅ : gset string) in
  DiskLaws (gset string) ∧
  run = (Ok tt, disk_of run, actions_of run) ∧
  Forall (λ a, is_print a = true ∨ a = Makedirs "vendor")
         (actions_of (clone_repos "build.py" DemoDisk.repos (disk_of run))).
Proof.
  intros run.
  assert (run = (Ok tt, disk_of run, actions_of run)) as H1
    by (vm_compute; reflexivity).
  split_and!; [apply demo_disk_laws | done |].
  exact (second_run_clones_nothing "build.py" _ _ _ _ H1).
Defined.

End ScriptWitnesses.
